(** * LC-3 virtual machine (lc3-vm.c): shallow embedding and verified properties

    The C program keeps its whole state in globals ([running], [memory],
    [reg]) and talks to the terminal through [select], [getchar], [putc]
    and [printf].  Here the globals and the two terminal streams are the
    fields of one record [vm], every C function is a computation in a small
    state-and-failure monad over [vm], and a [uint16_t] is a [Z] whose
    wrap-around is written out with [u16] at each store or call where C
    converts an [int] back to [uint16_t]. *)

From Stdlib Require Import ZArith Lia List Bool Ascii String.
Import ListNotations.

Local Open Scope Z_scope.

(** ** Machine integers *)

Definition UINT16_MAX : Z := 65535.

(** Conversion of an [int] to [uint16_t]. *)
Definition u16 (x : Z) : Z := x mod 65536.

(** A [Word] of the specification: a value a [uint16_t] can hold. *)
Definition is_word (x : Z) : Prop := 0 <= x < 65536.

(** The C operators on integers. *)
Notation "x >> n" := (Z.shiftr x n) (at level 30, no associativity) : Z_scope.
Notation "x << n" := (Z.shiftl x n) (at level 30, no associativity) : Z_scope.
Notation "x & y" := (Z.land x y) (at level 40, left associativity) : Z_scope.

(** C truth value of an integer. *)
Definition truthy (x : Z) : bool := negb (x =? 0).

(** ** Enumerations of the source *)

(* enum registers *)
Definition R_R0 : Z := 0.
Definition R_R1 : Z := 1.
Definition R_R2 : Z := 2.
Definition R_R3 : Z := 3.
Definition R_R4 : Z := 4.
Definition R_R5 : Z := 5.
Definition R_R6 : Z := 6.
Definition R_R7 : Z := 7.
Definition R_PC : Z := 8.
Definition R_COND : Z := 9.
Definition R_COUNT : Z := 10.

(* enum operations *)
Definition OP_BR : Z := 0.
Definition OP_ADD : Z := 1.
Definition OP_LD : Z := 2.
Definition OP_ST : Z := 3.
Definition OP_JSR : Z := 4.
Definition OP_AND : Z := 5.
Definition OP_LDR : Z := 6.
Definition OP_STR : Z := 7.
Definition OP_RTI : Z := 8.
Definition OP_NOT : Z := 9.
Definition OP_LDI : Z := 10.
Definition OP_STI : Z := 11.
Definition OP_JMP : Z := 12.
Definition OP_RES : Z := 13.
Definition OP_LEA : Z := 14.
Definition OP_TRAP : Z := 15.

(* enum flags *)
Definition FL_POS : Z := 1 << 0.
Definition FL_ZRO : Z := 1 << 1.
Definition FL_NEG : Z := 1 << 2.

(* enum traps *)
Definition TRAP_GETC : Z := 0x20.
Definition TRAP_OUT : Z := 0x21.
Definition TRAP_PUTS : Z := 0x22.
Definition TRAP_IN : Z := 0x23.
Definition TRAP_PUTSP : Z := 0x24.
Definition TRAP_HALT : Z := 0x25.

(* enum mem_regs *)
Definition MR_KBSR : Z := 0xFE00.
Definition MR_KBDR : Z := 0xFE02.

(** [getchar]'s end-of-input result. *)
Definition EOF : Z := -1.

(** ** The machine state *)

(** [memory] is [uint16_t memory[UINT16_MAX]] and [reg] is
    [uint16_t reg[R_COUNT]]: the cells of each array are a function of the
    index, and the declared lengths [MEMORY_LEN] and [REG_LEN] bound the
    indices an access may use (see [load], [store], [get_reg], [set_reg]).

    The terminal is scripted: [key_ready] lists the answers of the
    successive zero-timeout [select] calls of [check_key] (no answer left
    means nothing pending), [stdin] the characters the successive [getchar]
    calls deliver (none left means end of input), and [stdout] collects what
    was written. *)
Record vm : Type := mkVM {
  running : Z;
  memory : Z -> Z;
  reg : Z -> Z;
  key_ready : list bool;
  stdin : list ascii;
  stdout : list ascii
}.

Definition MEMORY_LEN : Z := UINT16_MAX.
Definition REG_LEN : Z := R_COUNT.

Definition set_running (v : Z) (s : vm) : vm :=
  mkVM v (memory s) (reg s) (key_ready s) (stdin s) (stdout s).
Definition set_memory (m : Z -> Z) (s : vm) : vm :=
  mkVM (running s) m (reg s) (key_ready s) (stdin s) (stdout s).
Definition set_regs (r : Z -> Z) (s : vm) : vm :=
  mkVM (running s) (memory s) r (key_ready s) (stdin s) (stdout s).
Definition set_key_ready (k : list bool) (s : vm) : vm :=
  mkVM (running s) (memory s) (reg s) k (stdin s) (stdout s).
Definition set_stdin (i : list ascii) (s : vm) : vm :=
  mkVM (running s) (memory s) (reg s) (key_ready s) i (stdout s).
Definition set_stdout (o : list ascii) (s : vm) : vm :=
  mkVM (running s) (memory s) (reg s) (key_ready s) (stdin s) o.

(** Array cell update. *)
Definition upd (a : Z -> Z) (i v : Z) : Z -> Z :=
  fun j => if j =? i then v else a j.

(** ** Computations

    A C function either returns (with a value and the new globals), calls
    [abort()], or indexes an array outside its declared length, which C
    leaves undefined. *)
Inductive outcome (A : Type) : Type :=
| Ok (a : A) (s : vm)
| Aborted (s : vm)
| OutOfBounds.
Arguments Ok {A} a s.
Arguments Aborted {A} s.
Arguments OutOfBounds {A}.

Definition M (A : Type) : Type := vm -> outcome A.

Definition ret {A} (a : A) : M A := fun s => Ok a s.

Definition bind {A B} (m : M A) (f : A -> M B) : M B :=
  fun s =>
    match m s with
    | Ok a s' => f a s'
    | Aborted s' => Aborted s'
    | OutOfBounds => OutOfBounds
    end.

Declare Scope vm_scope.
Delimit Scope vm_scope with vm.
Notation "x <- m ;; k" := (bind m (fun x => k))
  (at level 61, m at next level, right associativity) : vm_scope.
Notation "m ;; k" := (bind m (fun _ => k))
  (at level 61, right associativity) : vm_scope.
Local Open Scope vm_scope.

Definition abort {A} : M A := fun s => Aborted s.

Definition in_array (len i : Z) : bool := (0 <=? i) && (i <? len).

(** [memory[i]] as an rvalue and as an assignment target. *)
Definition load (i : Z) : M Z :=
  fun s => if in_array MEMORY_LEN i then Ok (memory s i) s else OutOfBounds.
Definition store (i v : Z) : M unit :=
  fun s => if in_array MEMORY_LEN i
           then Ok tt (set_memory (upd (memory s) i v) s)
           else OutOfBounds.

(** [reg[i]] as an rvalue and as an assignment target. *)
Definition get_reg (i : Z) : M Z :=
  fun s => if in_array REG_LEN i then Ok (reg s i) s else OutOfBounds.
Definition set_reg (i v : Z) : M unit :=
  fun s => if in_array REG_LEN i
           then Ok tt (set_regs (upd (reg s) i v) s)
           else OutOfBounds.

(** ** The terminal *)

Definition char_code (c : ascii) : Z := Z.of_N (N_of_ascii c).
Definition to_char (x : Z) : ascii := ascii_of_N (Z.to_N (x mod 256)).

(** [getchar()]: the next character as an [int], or [EOF]. *)
Definition getchar : M Z :=
  fun s =>
    match stdin s with
    | [] => Ok EOF s
    | c :: rest => Ok (char_code c) (set_stdin rest s)
    end.

(** [putc(c, stdout)]; the argument is written as an [unsigned char]. *)
Definition putc (c : Z) : M unit :=
  fun s => Ok tt (set_stdout (stdout s ++ [to_char c]) s).

Definition printf (text : string) : M unit :=
  fun s => Ok tt (set_stdout (stdout s ++ list_ascii_of_string text) s).

(** ** Helper functions *)

(* uint16_t sign_extend(uint16_t x, int bit_count): the shift is an [int]
   shift of 0xFFFF, which stays below 2^31 for bit_count <= 15 (the source
   passes 5, 6, 9 and 11 only); the assignment converts back to uint16_t. *)
Definition sign_extend (x bit_count : Z) : Z :=
  if truthy ((x >> (bit_count - 1)) & 1)
  then u16 (Z.lor x (0xFFFF << bit_count))
  else x.

(* void update_flags(uint16_t r) *)
Definition update_flags (r : Z) : M unit :=
  v <- get_reg r ;;
  if v =? 0 then set_reg R_COND FL_ZRO
  else if truthy (v >> 15) then set_reg R_COND FL_NEG
  else set_reg R_COND FL_POS.

(* uint16_t check_key(): whether select() reports standard input readable *)
Definition check_key : M Z :=
  fun s =>
    match key_ready s with
    | [] => Ok 0 s
    | b :: rest => Ok (if b then 1 else 0) (set_key_ready rest s)
    end.

(* uint16_t mem_read(uint16_t addr) *)
Definition mem_read (addr : Z) : M Z :=
  (if addr =? MR_KBSR then
     k <- check_key ;;
     if truthy k then
       store MR_KBSR (1 << 15) ;;
       c <- getchar ;;
       store MR_KBDR (u16 c)
     else
       store MR_KBSR 0
   else ret tt) ;;
  load addr.

(* void mem_write(uint16_t addr, uint16_t val) *)
Definition mem_write (addr val : Z) : M unit := store addr val.

(** ** Instructions *)

(* void and(uint16_t instruction) *)
Definition and (instruction : Z) : M unit :=
  let dr := (instruction >> 9) & 0x7 in
  let sr1 := (instruction >> 6) & 0x7 in
  let immediate_flag := (instruction >> 5) & 0x1 in
  (if truthy immediate_flag then
     let immediate := sign_extend (instruction & 0x1F) 5 in
     a <- get_reg sr1 ;;
     set_reg dr (u16 (a & immediate))
   else
     let sr2 := instruction & 0x7 in
     a <- get_reg sr1 ;;
     b <- get_reg sr2 ;;
     set_reg dr (u16 (a & b))) ;;
  update_flags dr.

(* void not(uint16_t instruction) *)
Definition not (instruction : Z) : M unit :=
  let dr := (instruction >> 9) & 0x7 in
  let sr := (instruction >> 6) & 0x7 in
  a <- get_reg sr ;;
  set_reg dr (u16 (Z.lnot a)) ;;
  update_flags dr.

(* void add(uint16_t instruction) *)
Definition add (instruction : Z) : M unit :=
  let dr := (instruction >> 9) & 0x7 in
  let r1 := (instruction >> 6) & 0x7 in
  let immediate_flag := (instruction >> 5) & 0x1 in
  (if truthy immediate_flag then
     let immediate := sign_extend (instruction & 0x1F) 5 in
     a <- get_reg r1 ;;
     set_reg dr (u16 (a + immediate))
   else
     let r2 := instruction & 0x7 in
     a <- get_reg r1 ;;
     b <- get_reg r2 ;;
     set_reg dr (u16 (a + b))) ;;
  update_flags dr.

(* void br(uint16_t instruction) *)
Definition br (instruction : Z) : M unit :=
  let offset := sign_extend (instruction & 0x1FF) 9 in
  let cond_flag := (instruction >> 9) & 0x7 in
  cond <- get_reg R_COND ;;
  if truthy (cond_flag & cond) then
    pc <- get_reg R_PC ;;
    set_reg R_PC (u16 (pc + offset))
  else ret tt.

(* void jmp(uint16_t instruction) *)
Definition jmp (instruction : Z) : M unit :=
  let sr := (instruction >> 6) & 0x7 in
  a <- get_reg sr ;;
  set_reg R_PC a.

(* void jsr(uint16_t instruction) *)
Definition jsr (instruction : Z) : M unit :=
  let offset_flag := (instruction >> 11) & 0x1 in
  pc <- get_reg R_PC ;;
  set_reg R_R7 pc ;;
  if truthy offset_flag then
    let offset := sign_extend (instruction & 0x7FF) 11 in
    pc <- get_reg R_PC ;;
    set_reg R_PC (u16 (pc + offset))
  else
    let sr := (instruction >> 6) & 0x7 in
    a <- get_reg sr ;;
    set_reg R_PC a.

(* void ld(uint16_t instruction) *)
Definition ld (instruction : Z) : M unit :=
  let dr := (instruction >> 9) & 0x7 in
  let offset := sign_extend (instruction & 0x1FF) 9 in
  pc <- get_reg R_PC ;;
  v <- mem_read (u16 (pc + offset)) ;;
  set_reg dr v ;;
  update_flags dr.

(* void st(uint16_t instruction) *)
Definition st (instruction : Z) : M unit :=
  let sr := (instruction >> 9) & 0x7 in
  let offset := sign_extend (instruction & 0x1FF) 9 in
  pc <- get_reg R_PC ;;
  v <- get_reg sr ;;
  mem_write (u16 (pc + offset)) v.

(* void lea(uint16_t instruction) *)
Definition lea (instruction : Z) : M unit :=
  let dr := (instruction >> 9) & 0x7 in
  let offset := sign_extend (instruction & 0x1FF) 9 in
  pc <- get_reg R_PC ;;
  set_reg dr (u16 (pc + offset)) ;;
  update_flags dr.

(* void ldi(uint16_t instruction) *)
Definition ldi (instruction : Z) : M unit :=
  let dr := (instruction >> 9) & 0x7 in
  let offset := sign_extend (instruction & 0x1FF) 9 in
  pc <- get_reg R_PC ;;
  p <- mem_read (u16 (pc + offset)) ;;
  v <- mem_read p ;;
  set_reg dr v ;;
  update_flags dr.

(* void sti(uint16_t instruction) *)
Definition sti (instruction : Z) : M unit :=
  let sr := (instruction >> 9) & 0x7 in
  let offset := sign_extend (instruction & 0x1FF) 9 in
  pc <- get_reg R_PC ;;
  p <- mem_read (u16 (pc + offset)) ;;
  v <- get_reg sr ;;
  mem_write p v.

(* void ldr(uint16_t instruction) *)
Definition ldr (instruction : Z) : M unit :=
  let dr := (instruction >> 9) & 0x7 in
  let r1 := (instruction >> 6) & 0x7 in
  let offset := sign_extend (instruction & 0x3F) 6 in
  b <- get_reg r1 ;;
  v <- mem_read (u16 (b + offset)) ;;
  set_reg dr v ;;
  update_flags dr.

(* void str(uint16_t instruction) *)
Definition str (instruction : Z) : M unit :=
  let sr := (instruction >> 9) & 0x7 in
  let r1 := (instruction >> 6) & 0x7 in
  let offset := sign_extend (instruction & 0x3F) 6 in
  b <- get_reg r1 ;;
  v <- get_reg sr ;;
  mem_write (u16 (b + offset)) v.

(* void rti(uint16_t instruction), void res(uint16_t instruction) *)
Definition rti (instruction : Z) : M unit := abort.
Definition res (instruction : Z) : M unit := abort.

(** ** Traps *)

Definition newline : ascii := ascii_of_nat 10.

(* void trap_getc() *)
Definition trap_getc : M unit :=
  c <- getchar ;;
  set_reg R_R0 (u16 c).

(* void trap_out() *)
Definition trap_out : M unit :=
  c <- get_reg R_R0 ;;
  putc c.

(** The while loop of [trap_puts], [c] being the index the pointer stands
    at.  Each round reads the word at [c], so the walk ends at a zero word or
    by reading past the last cell of [memory]; [fuel] counts the rounds and
    [Z.to_nat MEMORY_LEN] of it is never used up (see [puts_loop_fuel]). *)
Fixpoint puts_loop (fuel : nat) (c : Z) : M unit :=
  match fuel with
  | O => fun _ => OutOfBounds
  | S fuel' =>
      w <- load c ;;
      if truthy w then putc w ;; puts_loop fuel' (c + 1)
      else ret tt
  end.

(* void trap_puts() *)
Definition trap_puts : M unit :=
  r0 <- get_reg R_R0 ;;
  puts_loop (S (Z.to_nat MEMORY_LEN)) r0.

(* void trap_in() *)
Definition trap_in : M unit :=
  printf "Enter a character: " ;;
  c <- getchar ;;
  set_reg R_R0 (u16 c).

(** Conversion to [char], as its bit pattern. *)
Definition to_byte (x : Z) : Z := x mod 256.

(** The loop of [trap_putsp], with the same reading of [fuel]. *)
Fixpoint putsp_loop (fuel : nat) (c : Z) : M unit :=
  match fuel with
  | O => fun _ => OutOfBounds
  | S fuel' =>
      w <- load c ;;
      if truthy w then
        let char1 := to_byte (w & 0xFF) in
        putc char1 ;;
        let char2 := to_byte (w >> 8) in
        (if truthy char2 then putc char2 else ret tt) ;;
        putsp_loop fuel' (c + 1)
      else ret tt
  end.

(* void trap_putsp() *)
Definition trap_putsp : M unit :=
  r0 <- get_reg R_R0 ;;
  putsp_loop (S (Z.to_nat MEMORY_LEN)) r0.

(* void trap_halt() *)
Definition trap_halt : M unit :=
  printf "Halting execution" ;;
  putc (char_code newline) ;;
  fun s => Ok tt (set_running 0 s).

(* void trap(uint16_t instruction): a switch without a default case *)
Definition trap (instruction : Z) : M unit :=
  let trapvect := instruction & 0xFF in
  if trapvect =? TRAP_PUTS then trap_puts
  else if trapvect =? TRAP_GETC then trap_getc
  else if trapvect =? TRAP_OUT then trap_out
  else if trapvect =? TRAP_IN then trap_in
  else if trapvect =? TRAP_PUTSP then trap_putsp
  else if trapvect =? TRAP_HALT then trap_halt
  else ret tt.

(** ** The run loop of [main] *)

(* The switch on the opcode. *)
Definition dispatch (instruction : Z) : M unit :=
  let op := instruction >> 12 in
  if op =? OP_BR then br instruction
  else if op =? OP_ADD then add instruction
  else if op =? OP_LD then ld instruction
  else if op =? OP_ST then st instruction
  else if op =? OP_JSR then jsr instruction
  else if op =? OP_AND then and instruction
  else if op =? OP_LDR then ldr instruction
  else if op =? OP_STR then str instruction
  else if op =? OP_RTI then rti instruction
  else if op =? OP_NOT then not instruction
  else if op =? OP_LDI then ldi instruction
  else if op =? OP_STI then sti instruction
  else if op =? OP_JMP then jmp instruction
  else if op =? OP_RES then res instruction
  else if op =? OP_LEA then lea instruction
  else if op =? OP_TRAP then trap instruction
  else abort.

(* uint16_t instruction = mem_read(reg[R_PC]++); *)
Definition fetch : M Z :=
  pc <- get_reg R_PC ;;
  set_reg R_PC (u16 (pc + 1)) ;;
  mem_read pc.

(** One round of [while (running)]: fetch, decode, execute. *)
Definition step : M unit :=
  instruction <- fetch ;;
  dispatch instruction.

(** The first [n] rounds of the loop, fewer if [running] is cleared. *)
Fixpoint run (n : nat) : M unit :=
  match n with
  | O => ret tt
  | S n' => fun s => if truthy (running s) then (step ;; run n') s else Ok tt s
  end.

Definition PC_START : Z := 0x3000.

(** The globals when [main] reaches "Initial Setup": [running] and [reg]
    still zero-initialised, [memory] zero except for what the image loads
    put there, nothing written yet. *)
Definition loaded (image : Z -> Z) (keys : list bool) (input : list ascii) : vm :=
  mkVM 0 image (fun _ => 0) keys input [].

(* reg[R_PC] = PC_START; running = 1; *)
Definition setup : M unit :=
  set_reg R_PC PC_START ;;
  fun s => Ok tt (set_running 1 s).

(** The state in which the run loop begins. *)
Definition boot (image : Z -> Z) (keys : list bool) (input : list ascii) : vm :=
  match setup (loaded image keys input) with
  | Ok _ s => s
  | _ => loaded image keys input
  end.

(** ** Image loading and the start of [main]

    A file is the list of 16-bit items [fread] delivers from it, each as
    the host reads its two bytes (low byte first, which is what the swap in
    the source presupposes).  Files are made of whole items: a trailing odd
    byte, which C leaves indeterminate in the cell it lands in, is outside
    this model.  What [fopen] finds for a path is [Some] file or [None]. *)

(* uint16_t change_endian(uint16_t v) *)
Definition change_endian (v : Z) : Z := u16 (Z.lor (v << 8) (v >> 8)).

(** [fread(p, sizeof(uint16_t), n, file)] once the [n] items to deliver are
    known: they go to [memory[p]], [memory[p + 1]], ... *)
Fixpoint fread_items (p : Z) (items : list Z) : M unit :=
  match items with
  | [] => ret tt
  | w :: more => store p w ;; fread_items (p + 1) more
  end.

(** The loop [while (read-- > 0)] that swaps the bytes of the cells read. *)
Fixpoint swap_loop (read : nat) (p : Z) : M unit :=
  match read with
  | O => ret tt
  | S read' =>
      w <- load p ;;
      store p (change_endian w) ;;
      swap_loop read' (p + 1)
  end.

(* void read_image_file(FILE* file).  The local [origin] is not
   initialised: [stale] is what it holds if the file has no first item. *)
Definition read_image_file (stale : Z) (file : list Z) : M unit :=
  let origin := match file with [] => stale | w :: _ => w end in
  let origin := change_endian origin in
  let max_read := u16 (UINT16_MAX - origin) in
  let p := origin in
  let items := firstn (Z.to_nat max_read) (tl file) in
  fread_items p items ;;
  swap_loop (List.length items) p.

(* int read_image(const char* path) *)
Definition read_image (stale : Z) (opened : option (list Z)) : M Z :=
  match opened with
  | None => ret 0
  | Some file => read_image_file stale file ;; ret 1
  end.

(** One entry of [argv]: the path, what [fopen] finds there, and the stale
    content of [origin] in that call of [read_image_file]. *)
Record arg : Type := mkArg {
  path : string;
  opened : option (list Z);
  stale_origin : Z
}.

(** The loop [for (int i = 0; i < argc; ++i)] of [main], from entry [i] on:
    [Some 1] is [exit(1)], [None] is the loop running to its end. *)
Fixpoint load_images (argv : list arg) : M (option Z) :=
  match argv with
  | [] => ret None
  | a :: more =>
      ok <- read_image (stale_origin a) (opened a) ;;
      if truthy ok then load_images more
      else
        printf (String.append "Failed to load image " (path a)) ;;
        putc (char_code newline) ;;
        ret (Some 1)
  end.

(** [main] up to the run loop: [Some code] is [exit(code)], [None] is the
    loop about to begin.  [argv] has [argc] entries, the program's own path
    first; the terminal mode calls are not part of the state. *)
Definition main_before_loop (argv : list arg) : M (option Z) :=
  if Z.of_nat (List.length argv) <? 2 then
    printf "lc3-vm [image-file1] ..." ;;
    putc (char_code newline) ;;
    ret (Some 2)
  else
    r <- load_images argv ;;
    match r with
    | Some code => ret (Some code)
    | None => setup ;; ret None
    end.

(** The globals and terminal when the process starts. *)
Definition process_start (keys : list bool) (input : list ascii) : vm :=
  mkVM 0 (fun _ => 0) (fun _ => 0) keys input [].

(** The cells an image file fills: none before its origin, and no more
    than fit below cell [UINT16_MAX]. *)
Definition image_origin (stale : Z) (file : list Z) : Z :=
  change_endian (match file with [] => stale | w :: _ => w end).

Definition image_words (stale : Z) (file : list Z) : list Z :=
  firstn (Z.to_nat (u16 (UINT16_MAX - image_origin stale file))) (tl file).

(** Memory after an image file is laid over it. *)
Definition overlay (stale : Z) (file : list Z) (m : Z -> Z) : Z -> Z :=
  fun a =>
    let o := image_origin stale file in
    let ws := image_words stale file in
    if (o <=? a) && (a <? o + Z.of_nat (List.length ws))
    then change_endian (nth (Z.to_nat (a - o)) ws 0)
    else m a.

(** Memory after the files of all entries that open are laid over it in
    order. *)
Definition overlay_all (argv : list arg) (m : Z -> Z) : Z -> Z :=
  fold_left
    (fun m a =>
       match opened a with
       | Some file => overlay (stale_origin a) file m
       | None => m
       end)
    argv m.

(** ** Vocabulary of the statements *)

(** The condition register holds one of the three flag values. *)
Definition flag_valid (s : vm) : Prop :=
  reg s R_COND = FL_NEG \/ reg s R_COND = FL_ZRO \/ reg s R_COND = FL_POS.

(** The condition register holds 0, as zero-initialised, or a flag value. *)
Definition flag_unset_or_valid (s : vm) : Prop :=
  reg s R_COND = 0 \/ flag_valid s.

(** The next [n] polls of the keyboard find no pending character. *)
Definition idle (n : nat) (s : vm) : Prop :=
  forall i, (i < n)%nat -> nth i (key_ready s) false = false.

(** Every register and every memory cell holds a word. *)
Definition words (s : vm) : Prop :=
  (forall i, is_word (reg s i)) /\ (forall a, is_word (memory s a)).

(** [post m s Q]: if [m] returns from state [s], its value and final state
    satisfy [Q]. *)
Definition post {A} (m : M A) (s : vm) (Q : A -> vm -> Prop) : Prop :=
  match m s with
  | Ok a s' => Q a s'
  | _ => True
  end.

(** [triple P m Q]: from a state satisfying [P], if [m] returns, its value
    and final state satisfy [Q]. *)
Definition triple {A} (P : vm -> Prop) (m : M A) (Q : A -> vm -> Prop) : Prop :=
  forall s, P s -> post m s Q.

(** [m] keeps the state property [I]. *)
Definition preserves {A} (I : vm -> Prop) (m : M A) : Prop :=
  forall s, I s -> post m s (fun _ s' => I s').

(** Postconditions: the value returned is a word and the state holds words;
    the state holds words. *)
Definition word_and_words (v : Z) (s : vm) : Prop := is_word v /\ words s.
Definition just_words {A} (_ : A) : vm -> Prop := words.

(** [s'] differs from [s] in memory at most. *)
Definition memory_only (s s' : vm) : Prop :=
  reg s' = reg s /\ running s' = running s /\
  key_ready s' = key_ready s /\ stdin s' = stdin s /\ stdout s' = stdout s.

(** Two states with the same content, cell by cell. *)
Definition agree (s t : vm) : Prop :=
  running s = running t /\
  (forall a, memory s a = memory t a) /\
  (forall r, reg s r = reg t r) /\
  key_ready s = key_ready t /\ stdin s = stdin t /\ stdout s = stdout t.

(** [fopen] succeeds for the entry. *)
Definition opens (a : arg) : Prop := opened a <> None.

(** The flag value [update_flags] derives from a word. *)
Definition flag_of_word (v : Z) : Z :=
  if v =? 0 then FL_ZRO else if Z.testbit v 15 then FL_NEG else FL_POS.

(** An n-bit field read as a two's complement number. *)
Definition signed_field (x n : Z) : Z :=
  if x <? 2 ^ (n - 1) then x else x - 2 ^ n.

(** The [k] cells of an array from index [c] on. *)
Fixpoint cells (m : Z -> Z) (c : Z) (k : nat) : list Z :=
  match k with
  | O => []
  | S k' => m c :: cells m (c + 1) k'
  end.

(** The characters PUTSP writes for one word: the low byte, then the high
    byte unless it is zero. *)
Definition packed_chars (w : Z) : list ascii :=
  to_char (w mod 256) :: (if w / 256 =? 0 then [] else [to_char (w / 256)]).

(** [m] never ends in [abort()]. *)
Definition never_aborts {A} (m : M A) : Prop :=
  forall s s', m s <> Aborted s'.

(** *** Sample machines and images *)

(** A machine with empty memory and terminal and a value in R0. *)
Definition demo_regs (r0 : Z) : vm :=
  mkVM 1 (fun _ => 0) (upd (fun _ => 0) R_R0 r0) [] [] [].

(** A machine whose keyboard has a pending character [c]. *)
Definition demo_key (c : ascii) : vm :=
  mkVM 1 (fun _ => 0) (fun _ => 0) [true] [c] [].

(** A machine with empty memory and terminal and given PC, condition
    register and R7. *)
Definition demo_cpu (pc cond r7 : Z) : vm :=
  mkVM 1 (fun _ => 0)
       (upd (upd (upd (fun _ => 0) R_PC pc) R_COND cond) R_R7 r7) [] [] [].

(** A file with origin 0x3000 (as the host reads the big-endian bytes) and
    the given items, and an [argv] entry for it. *)
Definition demo_file (items : list Z) : list Z := 0x0030 :: items.

Definition demo_arg (name : string) (items : list Z) : arg :=
  mkArg name (Some (demo_file items)) 0.

(** An image with one word at [PC_START], zero elsewhere. *)
Definition one_word_image (w : Z) : Z -> Z := upd (fun _ => 0) PC_START w.

(** An image given by its nonzero cells. *)
Definition image_of (cells : list (Z * Z)) : Z -> Z :=
  fold_right (fun '(a, v) m => upd m a v) (fun _ => 0) cells.

(** Registers and output after [n] rounds of the loop. *)
Definition regs_after (n : nat) (s : vm) (rs : list Z) : option (list Z) :=
  match run n s with
  | Ok _ s' => Some (map (reg s') rs)
  | _ => None
  end.

Definition output_after (n : nat) (s : vm) : option string :=
  match run n s with
  | Ok _ s' => Some (string_of_list_ascii (stdout s'))
  | _ => None
  end.

(** * Properties *)

(** ** Bits and fields *)

Lemma truthy_iff (x : Z) : truthy x = true <-> x <> 0.
Proof.
  unfold truthy. destruct (Z.eqb_spec x 0); simpl; split; congruence.
Qed.

Lemma truthy_false_iff (x : Z) : truthy x = false <-> x = 0.
Proof.
  unfold truthy. destruct (Z.eqb_spec x 0); simpl; split; congruence.
Qed.

Lemma land_1_testbit (x : Z) : x & 1 = Z.b2z (Z.testbit x 0).
Proof.
  change 1 with (Z.ones 1). rewrite Z.land_ones by lia.
  symmetry. apply Z.bit0_mod.
Qed.

(** The C test [(x >> k) & 1] reads bit [k] of [x]. *)
Lemma bit_value (x k : Z) :
  0 <= k -> (x >> k) & 1 = Z.b2z (Z.testbit x k).
Proof.
  intros Hk. rewrite land_1_testbit, Z.shiftr_spec by lia.
  replace (0 + k) with k by lia. reflexivity.
Qed.

Lemma bit_test (x k : Z) :
  0 <= k -> truthy ((x >> k) & 1) = Z.testbit x k.
Proof.
  intros Hk. rewrite bit_value by lia.
  destruct (Z.testbit x k); reflexivity.
Qed.

(** A three-bit field is a general register number. *)
Lemma field3_mod (x : Z) : x & 0x7 = x mod 8.
Proof. apply (Z.land_ones x 3). lia. Qed.

Lemma field3_range (x : Z) : 0 <= x & 0x7 <= 7.
Proof.
  rewrite field3_mod. pose proof (Z.mod_pos_bound x 8). lia.
Qed.

Lemma field3_in_reg (x : Z) : in_array REG_LEN (x & 0x7) = true.
Proof.
  pose proof (field3_range x) as H. unfold in_array, REG_LEN, R_COUNT.
  apply andb_true_intro. split; [apply Z.leb_le | apply Z.ltb_lt]; lia.
Qed.

Lemma in_array_iff (len i : Z) : in_array len i = true <-> 0 <= i < len.
Proof.
  unfold in_array. rewrite andb_true_iff, Z.leb_le, Z.ltb_lt. tauto.
Qed.

Lemma u16_is_word (x : Z) : is_word (u16 x).
Proof. unfold is_word, u16. apply Z.mod_pos_bound. lia. Qed.

Lemma u16_word (x : Z) : is_word x -> u16 x = x.
Proof. unfold is_word, u16. intros H. apply Z.mod_small. exact H. Qed.

Lemma upd_same (a : Z -> Z) (i v : Z) : upd a i v i = v.
Proof. unfold upd. rewrite Z.eqb_refl. reflexivity. Qed.

Lemma upd_other (a : Z -> Z) (i v j : Z) : j <> i -> upd a i v j = a j.
Proof.
  intros H. unfold upd. destruct (Z.eqb_spec j i); [contradiction | reflexivity].
Qed.

(** ** sign_extend *)

Section SignExtend.

Variables x n : Z.
Hypothesis n_range : 0 < n <= 16.
Hypothesis x_field : 0 <= x < 2 ^ n.

Lemma field_high_bits (i : Z) : n <= i -> Z.testbit x i = false.
Proof.
  intros Hi. destruct (Z.eq_dec x 0) as [-> | Hx]; [apply Z.bits_0 |].
  apply Z.bits_above_log2; [lia |].
  assert (Z.log2 x < n) by (apply Z.log2_lt_pow2; lia). lia.
Qed.

Lemma sign_extend_bits (i : Z) :
  0 <= i < 16 ->
  Z.testbit (sign_extend x n) i =
  if i <? n then Z.testbit x i else Z.testbit x (n - 1).
Proof.
  intros Hi. unfold sign_extend. rewrite bit_test by lia.
  destruct (Z.testbit x (n - 1)) eqn:Htop.
  - unfold u16. change 65536 with (2 ^ 16).
    rewrite Z.mod_pow2_bits_low by lia.
    rewrite Z.lor_spec, Z.shiftl_spec by lia.
    destruct (Z.ltb_spec i n).
    + rewrite (Z.testbit_neg_r _ (i - n)) by lia. apply orb_false_r.
    + change 0xFFFF with (Z.ones 16).
      rewrite Z.ones_spec_low by lia. apply orb_true_r.
  - destruct (Z.ltb_spec i n); [reflexivity | apply field_high_bits; lia].
Qed.

Lemma sign_extend_is_word : is_word (sign_extend x n).
Proof.
  unfold sign_extend.
  destruct (truthy _); [apply u16_is_word |].
  unfold is_word. assert (2 ^ n <= 2 ^ 16) by (apply Z.pow_le_mono_r; lia).
  change (2 ^ 16) with 65536 in *. lia.
Qed.

(** The [int] the source shifts stays inside a 32-bit [int]. *)
Lemma sign_extend_shift_fits : n <= 15 -> 0 <= 0xFFFF << n < 2 ^ 31.
Proof.
  intros Hn. rewrite Z.shiftl_mul_pow2 by lia.
  assert (0 < 2 ^ n) by (apply Z.pow_pos_nonneg; lia).
  assert (2 ^ n <= 2 ^ 15) by (apply Z.pow_le_mono_r; lia).
  change (2 ^ 15) with 32768 in *. change (2 ^ 31) with 2147483648. lia.
Qed.

End SignExtend.

Section SignExtendValue.

Variables x n : Z.
Hypothesis n_range : 0 < n <= 16.
Hypothesis x_field : 0 <= x < 2 ^ n.

Lemma top_bit_threshold : Z.testbit x (n - 1) = negb (x <? 2 ^ (n - 1)).
Proof.
  assert (0 < 2 ^ (n - 1)) as Hpos by (apply Z.pow_pos_nonneg; lia).
  assert (2 ^ n = 2 * 2 ^ (n - 1)) as Hdouble.
  { rewrite <- Z.pow_succ_r by lia. f_equal. lia. }
  destruct (Z.ltb_spec x (2 ^ (n - 1))) as [Hlt | Hge]; cbn [negb].
  - apply Z.testbit_false; [lia |].
    rewrite Z.div_small by lia. reflexivity.
  - apply Z.testbit_true; [lia |].
    assert (x / 2 ^ (n - 1) = 1) as ->; [| reflexivity].
    symmetry. apply (Z.div_unique x (2 ^ (n - 1)) 1 (x - 2 ^ (n - 1))); lia.
Qed.

(** As a number, the extension is the field read as an n-bit two's
    complement integer, taken modulo 65536. *)
Lemma sign_extend_value :
  sign_extend x n = u16 (if x <? 2 ^ (n - 1) then x else x - 2 ^ n).
Proof.
  assert (0 < 2 ^ n) as Hpos by (apply Z.pow_pos_nonneg; lia).
  assert (2 ^ n <= 2 ^ 16) as Hle by (apply Z.pow_le_mono_r; lia).
  change (2 ^ 16) with 65536 in Hle.
  unfold sign_extend. rewrite bit_test by lia. rewrite top_bit_threshold.
  destruct (x <? 2 ^ (n - 1)); cbn [negb].
  - symmetry. apply u16_word. unfold is_word. lia.
  - assert (Z.lor x (0xFFFF << n) = x + 0xFFFF * 2 ^ n) as ->.
    { rewrite Z.shiftl_mul_pow2 by lia.
      rewrite <- Z.lxor_lor, <- Z.add_nocarry_lxor; try reflexivity;
        rewrite <- (Z.shiftl_mul_pow2 0xFFFF n) by lia;
        apply Z.bits_inj'; intros i Hi;
        rewrite Z.land_spec, Z.shiftl_spec, Z.bits_0 by lia;
        destruct (Z.ltb_spec i n);
        [ rewrite (Z.testbit_neg_r _ (i - n)) by lia; apply andb_false_r
        | rewrite (field_high_bits x n) by lia; reflexivity
        | rewrite (Z.testbit_neg_r _ (i - n)) by lia; apply andb_false_r
        | rewrite (field_high_bits x n) by lia; reflexivity ]. }
    unfold u16.
    replace (x + 0xFFFF * 2 ^ n) with (x - 2 ^ n + 2 ^ n * 65536) by lia.
    apply Z.mod_add. lia.
Qed.

End SignExtendValue.

(** Adding a sign-extended field, modulo 65536, is adding the field read as
    a signed number. *)
Lemma add_sign_extend (pc x n : Z) :
  0 < n <= 16 -> 0 <= x < 2 ^ n ->
  u16 (pc + sign_extend x n) = (pc + signed_field x n) mod 65536.
Proof.
  intros Hn Hx. rewrite (sign_extend_value x n Hn Hx).
  unfold u16, signed_field. apply Z.add_mod_idemp_r. lia.
Qed.

Lemma low_field_range (x n : Z) : 0 <= n -> 0 <= x & Z.ones n < 2 ^ n.
Proof.
  intros Hn. rewrite Z.land_ones by lia.
  apply Z.mod_pos_bound. apply Z.pow_pos_nonneg; lia.
Qed.

Lemma signed_field_range (x n : Z) :
  0 < n -> 0 <= x < 2 ^ n ->
  - 2 ^ (n - 1) <= signed_field x n <= 2 ^ (n - 1) - 1.
Proof.
  intros Hn Hx. unfold signed_field.
  assert (2 ^ n = 2 * 2 ^ (n - 1)) as Hdouble.
  { rewrite <- Z.pow_succ_r by lia. f_equal. lia. }
  destruct (Z.ltb_spec x (2 ^ (n - 1))); lia.
Qed.

(** C5. For an n-bit field x with n among 5, 6, 9 and 11, [sign_extend x n]
    is a 16-bit word whose bits below n are those of x and whose bits n..15
    all repeat the top bit (bit n-1) of x; the 5-bit pattern 11111 extends
    to 0xFFFF, the word for -1, and 00011 extends to 3. *)
Theorem sign_extend_replicates_top_bit (x n : Z) :
  In n [5; 6; 9; 11] ->
  0 <= x < 2 ^ n ->
  is_word (sign_extend x n) /\
  (forall i, 0 <= i < n ->
     Z.testbit (sign_extend x n) i = Z.testbit x i) /\
  (forall i, n <= i < 16 ->
     Z.testbit (sign_extend x n) i = Z.testbit x (n - 1)) /\
  sign_extend 31 5 = 0xFFFF /\
  0xFFFF = u16 (-1) /\
  sign_extend 3 5 = 3.
Proof.
  intros Hn Hx.
  assert (0 < n <= 16) as Hr.
  { simpl in Hn. lia. }
  split; [apply sign_extend_is_word; assumption |].
  split.
  { intros i Hi. rewrite sign_extend_bits by (assumption || lia).
    destruct (Z.ltb_spec i n); [reflexivity | lia]. }
  split.
  { intros i Hi. rewrite sign_extend_bits by (assumption || lia).
    destruct (Z.ltb_spec i n); [lia | reflexivity]. }
  repeat split.
Qed.

Lemma sign_extend_replicates_top_bit_witness :
  is_word (sign_extend 0x1F0 9) /\
  (forall i, 0 <= i < 9 ->
     Z.testbit (sign_extend 0x1F0 9) i = Z.testbit 0x1F0 i) /\
  (forall i, 9 <= i < 16 ->
     Z.testbit (sign_extend 0x1F0 9) i = Z.testbit 0x1F0 (9 - 1)) /\
  sign_extend 31 5 = 0xFFFF /\
  0xFFFF = u16 (-1) /\
  sign_extend 3 5 = 3.
Proof.
  apply (sign_extend_replicates_top_bit 0x1F0 9).
  - simpl. right. right. left. reflexivity.
  - simpl. lia.
Defined.

(** ** Running the primitives *)

Lemma bind_Ok {A B} (m : M A) (f : A -> M B) (s s' : vm) (a : A) :
  m s = Ok a s' -> bind m f s = f a s'.
Proof. intros H. unfold bind. rewrite H. reflexivity. Qed.

Lemma bind_OutOfBounds {A B} (m : M A) (f : A -> M B) (s : vm) :
  m s = OutOfBounds -> bind m f s = OutOfBounds.
Proof. intros H. unfold bind. rewrite H. reflexivity. Qed.

Lemma get_reg_in (i : Z) (s : vm) :
  in_array REG_LEN i = true -> get_reg i s = Ok (reg s i) s.
Proof. intros H. unfold get_reg. rewrite H. reflexivity. Qed.

Lemma set_reg_in (i v : Z) (s : vm) :
  in_array REG_LEN i = true ->
  set_reg i v s = Ok tt (set_regs (upd (reg s) i v) s).
Proof. intros H. unfold set_reg. rewrite H. reflexivity. Qed.

Lemma load_in (i : Z) (s : vm) :
  0 <= i < MEMORY_LEN -> load i s = Ok (memory s i) s.
Proof.
  intros H. unfold load. apply in_array_iff in H. rewrite H. reflexivity.
Qed.

Lemma store_in (i v : Z) (s : vm) :
  0 <= i < MEMORY_LEN ->
  store i v s = Ok tt (set_memory (upd (memory s) i v) s).
Proof.
  intros H. unfold store. apply in_array_iff in H. rewrite H. reflexivity.
Qed.

Lemma load_out (i : Z) (s : vm) :
  MEMORY_LEN <= i -> load i s = OutOfBounds.
Proof.
  intros H. unfold load, in_array.
  destruct (Z.ltb_spec i MEMORY_LEN); [lia |].
  rewrite andb_false_r. reflexivity.
Qed.

Lemma store_out (i v : Z) (s : vm) :
  MEMORY_LEN <= i -> store i v s = OutOfBounds.
Proof.
  intros H. unfold store, in_array.
  destruct (Z.ltb_spec i MEMORY_LEN); [lia |].
  rewrite andb_false_r. reflexivity.
Qed.

(** Unfolds one primitive step of a computation applied to a state. *)
Ltac run_step :=
  match goal with
  | |- context [bind ?m ?f ?s] =>
      progress (unfold bind at 1; cbv beta)
  | |- context [get_reg (_ & 0x7) ?s] =>
      rewrite (get_reg_in _ s) by apply field3_in_reg; cbv beta iota
  | |- context [set_reg (_ & 0x7) _ ?s] =>
      rewrite (set_reg_in _ _ s) by apply field3_in_reg; cbv beta iota
  | |- context [get_reg ?i ?s] =>
      rewrite (get_reg_in i s) by reflexivity; cbv beta iota
  | |- context [set_reg ?i _ ?s] =>
      rewrite (set_reg_in i _ s) by reflexivity; cbv beta iota
  | |- context [ret _ _] => unfold ret
  end.

(** ** update_flags *)

Lemma flags_distinct : FL_POS <> FL_ZRO /\ FL_POS <> FL_NEG /\ FL_ZRO <> FL_NEG.
Proof. repeat split; discriminate. Qed.

(** For a word, [v >> 15] is nonzero exactly when bit 15 is set. *)
Lemma sign_test (v : Z) : is_word v -> truthy (v >> 15) = Z.testbit v 15.
Proof.
  unfold is_word. intros Hv.
  assert (v >> 15 = Z.b2z (Z.testbit v 15)) as ->.
  { rewrite <- bit_value by lia. symmetry.
    change 1 with (Z.ones 1). rewrite Z.land_ones by lia.
    apply Z.mod_small. rewrite Z.shiftr_div_pow2 by lia.
    change (2 ^ 15) with 32768. change (2 ^ 1) with 2.
    split; [apply Z.div_pos; lia | apply Z.div_lt_upper_bound; lia]. }
  destruct (Z.testbit v 15); reflexivity.
Qed.

Lemma update_flags_runs (r : Z) (s : vm) :
  in_array REG_LEN r = true ->
  update_flags r s =
  Ok tt (set_regs (upd (reg s) R_COND
                     (if reg s r =? 0 then FL_ZRO
                      else if truthy (reg s r >> 15) then FL_NEG
                      else FL_POS)) s).
Proof.
  intros Hr. unfold update_flags. run_step.
  rewrite (get_reg_in r s Hr).
  destruct (reg s r =? 0); [| destruct (truthy _)]; run_step; reflexivity.
Qed.

Lemma update_flags_valid (r : Z) (s s' : vm) :
  update_flags r s = Ok tt s' -> flag_valid s'.
Proof.
  unfold update_flags, bind, get_reg.
  destruct (in_array REG_LEN r); [| discriminate].
  unfold flag_valid.
  destruct (reg s r =? 0); [| destruct (truthy _)]; run_step;
    intros [= <-]; simpl; rewrite upd_same; auto.
Qed.

(** C4. For a register r holding a word, [update_flags r] returns with the
    condition flag set to ZERO when the word is 0, to NEGATIVE when its
    bit 15 is 1 and to POSITIVE otherwise, changing nothing else; the three
    cases exclude each other and the three flag values differ, so exactly
    one outcome holds for every word. *)
Theorem update_flags_sets_flag (r : Z) (s : vm) :
  0 <= r < R_COUNT ->
  is_word (reg s r) ->
  exists s',
    update_flags r s = Ok tt s' /\
    (reg s r = 0 -> reg s' R_COND = FL_ZRO) /\
    (Z.testbit (reg s r) 15 = true -> reg s' R_COND = FL_NEG) /\
    (reg s r <> 0 -> Z.testbit (reg s r) 15 = false ->
     reg s' R_COND = FL_POS) /\
    (reg s r = 0 -> Z.testbit (reg s r) 15 = false) /\
    (FL_POS <> FL_ZRO /\ FL_POS <> FL_NEG /\ FL_ZRO <> FL_NEG) /\
    (forall i, i <> R_COND -> reg s' i = reg s i) /\
    memory s' = memory s /\ running s' = running s.
Proof.
  intros Hr Hw.
  assert (in_array REG_LEN r = true) as Hin by (apply in_array_iff; exact Hr).
  eexists. split; [apply update_flags_runs; exact Hin |].
  unfold set_regs. cbn [reg memory running].
  rewrite upd_same, (sign_test _ Hw).
  destruct (Z.eqb_spec (reg s r) 0) as [E | E].
  - rewrite E. repeat split; try discriminate; try congruence.
    intros i Hi. apply upd_other. exact Hi.
  - repeat split; try discriminate; try congruence.
    + intros ->. reflexivity.
    + intros _ ->. reflexivity.
    + intros i Hi. apply upd_other. exact Hi.
Qed.

Lemma update_flags_sets_flag_witness :
  exists s',
    update_flags R_R0 (demo_regs 0x8000) = Ok tt s' /\
    reg s' R_COND = FL_NEG.
Proof.
  destruct (update_flags_sets_flag R_R0 (demo_regs 0x8000))
    as (s' & Hrun & _ & Hneg & _).
  - unfold R_R0, R_COUNT. lia.
  - unfold is_word, demo_regs. cbn. lia.
  - exists s'. split; [exact Hrun | apply Hneg; reflexivity].
Defined.

(** ** Memory and the keyboard registers *)

Lemma check_key_total (s : vm) :
  exists k s1, check_key s = Ok k s1 /\ (k = 0 \/ k = 1) /\
               memory s1 = memory s /\ reg s1 = reg s /\
               stdin s1 = stdin s /\ key_ready s1 = tl (key_ready s).
Proof.
  unfold check_key. destruct (key_ready s) as [| [|] ks] eqn:E.
  - exists 0, s. rewrite E. repeat split; auto.
  - exists 1, (set_key_ready ks s). repeat split; auto.
  - exists 0, (set_key_ready ks s). repeat split; auto.
Qed.

Lemma getchar_total (s : vm) :
  exists c s1, getchar s = Ok c s1 /\ (c = EOF \/ 0 <= c <= 255) /\
               memory s1 = memory s /\ reg s1 = reg s /\
               running s1 = running s /\ stdout s1 = stdout s.
Proof.
  unfold getchar. destruct (stdin s) as [| c rest].
  - exists EOF, s. repeat split; auto.
  - exists (char_code c), (set_stdin rest s). repeat split; auto.
    right. unfold char_code. pose proof (N_ascii_bounded c). lia.
Qed.

Lemma check_key_memory (s s1 : vm) (k : Z) :
  check_key s = Ok k s1 -> memory s1 = memory s.
Proof.
  intros H. destruct (check_key_total s) as (k' & s' & H' & _ & Hm & _).
  rewrite H in H'. injection H' as _ ->. exact Hm.
Qed.

Lemma getchar_frame (s s1 : vm) (c : Z) (m : Z -> Z) :
  getchar s = Ok c s1 ->
  getchar (set_memory m s) = Ok c (set_memory m s1).
Proof.
  unfold getchar. cbn [stdin set_memory].
  destruct (stdin s); intros [= <- <-]; reflexivity.
Qed.

Lemma mem_read_plain (addr : Z) (s : vm) :
  addr <> MR_KBSR -> 0 <= addr < MEMORY_LEN ->
  mem_read addr s = Ok (memory s addr) s.
Proof.
  intros Hne Hin. unfold mem_read.
  destruct (Z.eqb_spec addr MR_KBSR); [contradiction |].
  repeat run_step. apply load_in. exact Hin.
Qed.

Lemma mem_read_outside (addr : Z) (s : vm) :
  MEMORY_LEN <= addr -> mem_read addr s = OutOfBounds.
Proof.
  intros Hout. unfold mem_read.
  destruct (Z.eqb_spec addr MR_KBSR) as [E | _].
  - rewrite E in Hout. exfalso. apply Hout. reflexivity.
  - repeat run_step. apply load_out. exact Hout.
Qed.

Lemma mem_write_inside (addr val : Z) (s : vm) :
  0 <= addr < MEMORY_LEN ->
  mem_write addr val s = Ok tt (set_memory (upd (memory s) addr val) s).
Proof. apply store_in. Qed.

Lemma mem_write_outside (addr val : Z) (s : vm) :
  MEMORY_LEN <= addr -> mem_write addr val s = OutOfBounds.
Proof. apply store_out. Qed.

(** Reading the status register when the poll finds input. *)
Lemma mem_read_status_ready (s s1 s2 : vm) (k c : Z) :
  check_key s = Ok k s1 -> k <> 0 -> getchar s1 = Ok c s2 ->
  mem_read MR_KBSR s =
  Ok (1 << 15)
     (set_memory (upd (upd (memory s) MR_KBSR (1 << 15)) MR_KBDR (u16 c)) s2).
Proof.
  intros Hpoll Hk Hget. unfold mem_read. rewrite Z.eqb_refl.
  unfold bind at 1. unfold bind at 1. rewrite Hpoll.
  apply truthy_iff in Hk. rewrite Hk.
  unfold bind at 1. rewrite store_in by (vm_compute; split; congruence).
  unfold bind at 1.
  rewrite (getchar_frame _ _ _ _ Hget).
  rewrite store_in by (vm_compute; split; congruence).
  rewrite load_in by (vm_compute; split; congruence).
  pose proof (check_key_memory _ _ _ Hpoll) as Hm.
  unfold set_memory. cbn [memory running reg key_ready stdin stdout].
  rewrite Hm, upd_other, upd_same by discriminate. reflexivity.
Qed.

(** Reading the status register when the poll finds nothing. *)
Lemma mem_read_status_idle (s s1 : vm) :
  check_key s = Ok 0 s1 ->
  mem_read MR_KBSR s = Ok 0 (set_memory (upd (memory s) MR_KBSR 0) s1).
Proof.
  intros Hpoll. unfold mem_read. rewrite Z.eqb_refl.
  unfold bind at 1. unfold bind at 1. rewrite Hpoll.
  change (truthy 0) with false. cbv iota.
  rewrite store_in by (vm_compute; split; congruence).
  rewrite load_in by (vm_compute; split; congruence).
  pose proof (check_key_memory _ _ _ Hpoll) as Hm.
  unfold set_memory. cbn [memory running reg key_ready stdin stdout].
  rewrite Hm, upd_same. reflexivity.
Qed.


Lemma check_key_idle (s : vm) :
  idle 1 s ->
  exists s1, check_key s = Ok 0 s1 /\ key_ready s1 = tl (key_ready s) /\
             memory s1 = memory s.
Proof.
  intros Hidle. specialize (Hidle 0%nat (Nat.lt_0_succ 0)).
  unfold check_key. destruct (key_ready s) as [| b ks] eqn:E.
  - exists s. rewrite E. auto.
  - simpl in Hidle. subst b. exists (set_key_ready ks s). auto.
Qed.

(** C1. Address 0xFFFF is a word, yet [memory] is declared with
    [UINT16_MAX] = 65535 cells: reading or writing address 0xFFFF indexes
    one cell past the array, while every lower address is inside it. *)
Theorem memory_misses_last_address :
  is_word 0xFFFF /\
  MEMORY_LEN = 65535 /\
  (forall s, mem_read 0xFFFF s = OutOfBounds) /\
  (forall s value, mem_write 0xFFFF value s = OutOfBounds) /\
  (forall addr s value,
     0 <= addr < 0xFFFF ->
     (exists v s', mem_read addr s = Ok v s') /\
     (exists s', mem_write addr value s = Ok tt s')).
Proof.
  split; [unfold is_word; lia |].
  split; [reflexivity |].
  split; [intros s; apply mem_read_outside; discriminate |].
  split; [intros s v; apply mem_write_outside; discriminate |].
  intros addr s value Hin. split.
  - destruct (Z.eq_dec addr MR_KBSR) as [-> | Hne].
    + destruct (check_key_total s) as (k & s1 & Hpoll & [-> | ->] & _).
      * eexists _, _. apply (mem_read_status_idle _ _ Hpoll).
      * destruct (getchar_total s1) as (c & s2 & Hget & _).
        eexists _, _.
        apply (mem_read_status_ready s s1 s2 1 c Hpoll); [discriminate |].
        exact Hget.
    + eexists _, _. apply mem_read_plain; [exact Hne | exact Hin].
  - eexists. apply mem_write_inside. exact Hin.
Qed.

Lemma memory_misses_last_address_witness :
  (exists v s', mem_read 0xFFFE (demo_regs 0) = Ok v s') /\
  (exists s', mem_write 0xFFFE 7 (demo_regs 0) = Ok tt s').
Proof.
  destruct memory_misses_last_address as (_ & _ & _ & _ & Hin).
  apply (Hin 0xFFFE (demo_regs 0) 7). lia.
Defined.

(** C2. [mem_read] over every word address.  At the status address it
    polls first; with input available it returns after storing the
    character read at 0xFE02 and a word with bit 15 set at 0xFE00, without
    input after storing 0 at 0xFE00, and the value returned is the one now
    stored at the address.  At any other address inside the array it
    returns the stored value and leaves the state as it was.  At 0xFFFF,
    which is not the status address, it indexes outside the array. *)
Theorem mem_read_by_address (addr : Z) (s : vm) :
  is_word addr ->
  (addr = MR_KBSR ->
   exists k s1,
     check_key s = Ok k s1 /\
     (k <> 0 ->
      exists c s2 s',
        getchar s1 = Ok c s2 /\
        mem_read addr s = Ok (memory s' addr) s' /\
        memory s' MR_KBDR = u16 c /\
        (0 <= c <= 255 -> memory s' MR_KBDR = c) /\
        Z.testbit (memory s' MR_KBSR) 15 = true /\
        (forall a, a <> MR_KBSR -> a <> MR_KBDR ->
                   memory s' a = memory s a)) /\
     (k = 0 ->
      exists s',
        mem_read addr s = Ok (memory s' addr) s' /\
        memory s' MR_KBSR = 0 /\
        (forall a, a <> MR_KBSR -> memory s' a = memory s a))) /\
  (addr <> MR_KBSR -> addr < MEMORY_LEN ->
   mem_read addr s = Ok (memory s addr) s) /\
  (addr = 0xFFFF -> addr <> MR_KBSR /\ mem_read addr s = OutOfBounds).
Proof.
  intros Hw. split; [| split].
  - intros ->.
    destruct (check_key_total s) as (k & s1 & Hpoll & _).
    exists k, s1. split; [exact Hpoll |]. split.
    + intros Hk. destruct (getchar_total s1) as (c & s2 & Hget & _).
      exists c, s2.
      exists (set_memory
                (upd (upd (memory s) MR_KBSR (1 << 15)) MR_KBDR (u16 c)) s2).
      split; [exact Hget |].
      rewrite (mem_read_status_ready _ _ _ _ _ Hpoll Hk Hget).
      unfold set_memory. cbn [memory].
      rewrite upd_same, upd_other, upd_same by discriminate.
      repeat split.
      * intros Hc. apply u16_word. unfold is_word. lia.
      * intros a H1 H2. rewrite !upd_other by assumption. reflexivity.
    + intros ->. exists (set_memory (upd (memory s) MR_KBSR 0) s1).
      rewrite (mem_read_status_idle _ _ Hpoll).
      unfold set_memory. cbn [memory]. rewrite upd_same.
      repeat split. intros a Ha. apply upd_other. exact Ha.
  - intros Hne Hlt. apply mem_read_plain; [exact Hne |].
    unfold is_word in Hw. lia.
  - intros ->. split; [discriminate |].
    apply mem_read_outside. discriminate.
Qed.

Lemma mem_read_by_address_witness :
  exists s',
    mem_read MR_KBSR (demo_key "a") = Ok (memory s' MR_KBSR) s' /\
    memory s' MR_KBDR = 97 /\
    Z.testbit (memory s' MR_KBSR) 15 = true.
Proof.
  assert (is_word MR_KBSR) as Hw by (unfold is_word, MR_KBSR; lia).
  destruct (mem_read_by_address MR_KBSR (demo_key "a") Hw) as (Hst & _).
  destruct (Hst eq_refl) as (k & s1 & Hpoll & Hready & _).
  injection Hpoll as <- <-.
  destruct Hready as (c & s2 & s' & Hget & Hrun & _ & Hchar & Hbit & _);
    [discriminate |].
  injection Hget as <- <-.
  exists s'. split; [exact Hrun |]. split; [| exact Hbit].
  apply Hchar. vm_compute. split; discriminate.
Defined.

(** C8. Reading twice.  At an address inside the array other than the
    status address, a read returns the stored value and leaves the state
    as it was, so a second read returns the same value; two reads of the
    status address while the keyboard stays idle both return 0.  The
    non-device address 0xFFFF is outside the array, and a read of it has no
    defined value. *)
Theorem mem_read_twice (a : Z) (s : vm) :
  is_word a ->
  (a <> MR_KBSR -> a < MEMORY_LEN ->
   exists v,
     mem_read a s = Ok v s /\
     (v1 <- mem_read a ;; v2 <- mem_read a ;; ret (v1, v2)) s = Ok (v, v) s) /\
  (a = MR_KBSR -> idle 2 s ->
   exists s1 s2, mem_read a s = Ok 0 s1 /\ mem_read a s1 = Ok 0 s2) /\
  (a = 0xFFFF ->
   a <> MR_KBSR /\ a <> MR_KBDR /\ mem_read a s = OutOfBounds).
Proof.
  intros Hw. split; [| split].
  - intros Hne Hlt.
    assert (mem_read a s = Ok (memory s a) s) as Hread.
    { apply mem_read_plain; [exact Hne |]. unfold is_word in Hw. lia. }
    exists (memory s a). split; [exact Hread |].
    rewrite (bind_Ok _ _ _ _ _ Hread), (bind_Ok _ _ _ _ _ Hread).
    reflexivity.
  - intros -> Hidle.
    destruct (check_key_idle s) as (s1 & Hpoll1 & Hkeys1 & _).
    { intros i Hi. apply Hidle. lia. }
    pose proof (mem_read_status_idle _ _ Hpoll1) as Hread1.
    set (t1 := set_memory (upd (memory s) MR_KBSR 0) s1) in *.
    destruct (check_key_idle t1) as (s2 & Hpoll2 & _).
    { intros i Hi. unfold t1, idle, set_memory. cbn [key_ready].
      rewrite Hkeys1. destruct i as [| i]; [| lia].
      specialize (Hidle 1%nat (Nat.lt_succ_diag_r 1)).
      destruct (key_ready s) as [| b [| b' ks]]; auto. }
    exists t1. eexists. split; [exact Hread1 |].
    apply mem_read_status_idle. exact Hpoll2.
  - intros ->. split; [discriminate |]. split; [discriminate |].
    apply mem_read_outside. discriminate.
Qed.

Lemma mem_read_twice_witness :
  (exists v,
     mem_read 0x3000 (demo_regs 0) = Ok v (demo_regs 0) /\
     (v1 <- mem_read 0x3000 ;; v2 <- mem_read 0x3000 ;; ret (v1, v2))
       (demo_regs 0) = Ok (v, v) (demo_regs 0)) /\
  (exists s1 s2,
     mem_read MR_KBSR (demo_regs 0) = Ok 0 s1 /\
     mem_read MR_KBSR s1 = Ok 0 s2).
Proof.
  split.
  - assert (is_word 0x3000) as Hw by (unfold is_word; lia).
    destruct (mem_read_twice 0x3000 (demo_regs 0) Hw) as (Hplain & _).
    apply Hplain; [discriminate | reflexivity].
  - assert (is_word MR_KBSR) as Hw by (unfold is_word, MR_KBSR; lia).
    destruct (mem_read_twice MR_KBSR (demo_regs 0) Hw) as (_ & Hstatus & _).
    apply Hstatus; [reflexivity |].
    intros i _. destruct i as [| [| i]]; reflexivity.
Defined.

(** ** Invariants of computations *)

Lemma post_Ok {A} (m : M A) (s s' : vm) (a : A) (Q : A -> vm -> Prop) :
  post m s Q -> m s = Ok a s' -> Q a s'.
Proof. unfold post. intros H E. rewrite E in H. exact H. Qed.

Lemma preserves_ret {A} (I : vm -> Prop) (a : A) : preserves I (ret a).
Proof. intros s H. exact H. Qed.

Lemma preserves_bind {A B} (I : vm -> Prop) (m : M A) (f : A -> M B) :
  preserves I m -> (forall a, preserves I (f a)) -> preserves I (bind m f).
Proof.
  intros Hm Hf s HI. unfold post, bind.
  specialize (Hm s HI). unfold post in Hm.
  destruct (m s) as [a s' | s' |]; [| exact Logic.I | exact Logic.I].
  apply (Hf a s' Hm).
Qed.

Lemma preserves_if {A} (I : vm -> Prop) (b : bool) (m1 m2 : M A) :
  preserves I m1 -> preserves I m2 -> preserves I (if b then m1 else m2).
Proof. destruct b; auto. Qed.

Lemma preserves_abort {A} (I : vm -> Prop) : preserves I (@abort A).
Proof. intros s _. exact Logic.I. Qed.

Lemma preserves_get_reg (I : vm -> Prop) (i : Z) : preserves I (get_reg i).
Proof.
  intros s H. unfold post, get_reg.
  destruct (in_array REG_LEN i); [exact H | exact Logic.I].
Qed.

(** Memory and terminal operations leave [reg] and [running] alone, so
    they keep every property that only looks at those two. *)
Section RegisterFrame.

Variable I : vm -> Prop.
Hypothesis I_frame :
  forall s s', reg s' = reg s -> running s' = running s -> I s -> I s'.

Lemma preserves_load (i : Z) : preserves I (load i).
Proof.
  intros s H. unfold post, load.
  destruct (in_array MEMORY_LEN i); [exact H | exact Logic.I].
Qed.

Lemma preserves_store (i v : Z) : preserves I (store i v).
Proof.
  intros s H. unfold post, store.
  destruct (in_array MEMORY_LEN i); [| exact Logic.I].
  apply (I_frame s); auto.
Qed.

Lemma preserves_getchar : preserves I getchar.
Proof.
  intros s H. unfold post, getchar.
  destruct (stdin s); [exact H | apply (I_frame s); auto].
Qed.

Lemma preserves_check_key : preserves I check_key.
Proof.
  intros s H. unfold post, check_key.
  destruct (key_ready s); [exact H | apply (I_frame s); auto].
Qed.

Lemma preserves_putc (c : Z) : preserves I (putc c).
Proof. intros s H. unfold post, putc. apply (I_frame s); auto. Qed.

Lemma preserves_printf (text : string) : preserves I (printf text).
Proof. intros s H. unfold post, printf. apply (I_frame s); auto. Qed.

Lemma preserves_mem_read (addr : Z) : preserves I (mem_read addr).
Proof.
  unfold mem_read.
  apply preserves_bind; [| intros _; apply preserves_load].
  apply preserves_if; [| apply preserves_ret].
  apply preserves_bind; [apply preserves_check_key | intros k].
  apply preserves_if; [| apply preserves_store].
  apply preserves_bind; [apply preserves_store | intros _].
  apply preserves_bind; [apply preserves_getchar | intros c].
  apply preserves_store.
Qed.

Lemma preserves_mem_write (addr val : Z) : preserves I (mem_write addr val).
Proof. apply preserves_store. Qed.

Lemma preserves_puts_loop (fuel : nat) (c : Z) : preserves I (puts_loop fuel c).
Proof.
  revert c. induction fuel as [| fuel IH]; intros c.
  - intros s _. exact Logic.I.
  - cbn [puts_loop].
    apply preserves_bind; [apply preserves_load | intros w].
    apply preserves_if; [| apply preserves_ret].
    apply preserves_bind; [apply preserves_putc | intros _; apply IH].
Qed.

Lemma preserves_putsp_loop (fuel : nat) (c : Z) :
  preserves I (putsp_loop fuel c).
Proof.
  revert c. induction fuel as [| fuel IH]; intros c.
  - intros s _. exact Logic.I.
  - cbn [putsp_loop].
    apply preserves_bind; [apply preserves_load | intros w].
    apply preserves_if; [| apply preserves_ret].
    apply preserves_bind; [apply preserves_putc | intros _].
    apply preserves_bind; [| intros _; apply IH].
    apply preserves_if; [apply preserves_putc | apply preserves_ret].
Qed.

End RegisterFrame.

(** ** Fetch and dispatch *)

(** What the fetch leaves behind: the PC moved on by one, the other
    registers and [running] as they were. *)
Lemma fetch_effect (s0 s : vm) (instruction : Z) :
  fetch s0 = Ok instruction s ->
  reg s R_PC = u16 (reg s0 R_PC + 1) /\
  (forall r, r <> R_PC -> reg s r = reg s0 r) /\
  running s = running s0.
Proof.
  unfold fetch. repeat run_step.
  set (t := set_regs (upd (reg s0) R_PC (u16 (reg s0 R_PC + 1))) s0).
  intros H.
  assert (reg s = reg t /\ running s = running t) as (Hr & Hrun).
  { apply (post_Ok (mem_read (reg s0 R_PC)) t s instruction
             (fun _ s' => reg s' = reg t /\ running s' = running t));
      [| exact H].
    apply (preserves_mem_read (fun s' => reg s' = reg t /\ running s' = running t));
      [| split; reflexivity].
    intros u u' E1 E2 (E3 & E4). split; congruence. }
  rewrite Hr, Hrun. unfold t. cbn [reg running set_regs].
  rewrite upd_same. repeat split.
  intros r Hne. apply upd_other. exact Hne.
Qed.

Lemma step_after_fetch (s0 s : vm) (instruction : Z) :
  fetch s0 = Ok instruction s -> step s0 = dispatch instruction s.
Proof. intros H. unfold step. apply (bind_Ok _ _ _ _ _ H). Qed.

Lemma run_after_step (n : nat) (s0 s : vm) :
  truthy (running s0) = true -> step s0 = Ok tt s ->
  run (S n) s0 = run n s.
Proof.
  intros Hrun Hstep. cbn [run]. rewrite Hrun.
  unfold bind. rewrite Hstep. reflexivity.
Qed.

(** ** BR *)

Lemma br_runs (instruction : Z) (s : vm) :
  br instruction s =
  Ok tt (if truthy (((instruction >> 9) & 0x7) & reg s R_COND)
         then set_regs (upd (reg s) R_PC
                          (u16 (reg s R_PC +
                                sign_extend (instruction & 0x1FF) 9))) s
         else s).
Proof.
  unfold br. repeat run_step.
  destruct (truthy _); repeat run_step; reflexivity.
Qed.

(** C6. BR with mask m and 9-bit offset, run when the condition register
    holds f (the PC already moved past the instruction by the fetch):
    it returns; if m AND f is nonzero the PC becomes the PC plus the
    offset read as a signed number from -256 to 255, modulo 65536,
    otherwise the PC stays; every other register (the general ones and the
    condition register), the memory, [running] and the terminal stay as
    they were.  As a step of the loop, the PC it adds to is the fetch
    address plus one. *)
Theorem br_branches_on_mask (instruction : Z) (s : vm) :
  let m := (instruction >> 9) & 0x7 in
  let f := reg s R_COND in
  let offset := signed_field (instruction & 0x1FF) 9 in
  exists s',
    br instruction s = Ok tt s' /\
    -256 <= offset <= 255 /\
    (m & f <> 0 -> reg s' R_PC = (reg s R_PC + offset) mod 65536) /\
    (m & f = 0 -> reg s' R_PC = reg s R_PC) /\
    (forall r, r <> R_PC -> reg s' r = reg s r) /\
    memory s' = memory s /\
    running s' = running s /\
    key_ready s' = key_ready s /\ stdin s' = stdin s /\ stdout s' = stdout s /\
    (forall s0,
       fetch s0 = Ok instruction s -> instruction >> 12 = OP_BR ->
       step s0 = Ok tt s' /\
       (m & f <> 0 ->
        reg s' R_PC = ((reg s0 R_PC + 1) mod 65536 + offset) mod 65536) /\
       (m & f = 0 -> reg s' R_PC = (reg s0 R_PC + 1) mod 65536)).
Proof.
  intros m f offset. eexists. split; [apply br_runs |].
  fold m f.
  assert (0 <= instruction & 0x1FF < 2 ^ 9) as Hfield
      by apply (low_field_range instruction 9 ltac:(lia)).
  assert (forall pc,
            u16 (pc + sign_extend (instruction & 0x1FF) 9) =
            (pc + offset) mod 65536) as Htarget.
  { intros pc. apply add_sign_extend; [lia | exact Hfield]. }
  assert (forall s0, fetch s0 = Ok instruction s -> instruction >> 12 = OP_BR ->
                     step s0 = br instruction s) as Hstep.
  { intros s0 Hf Hop. rewrite (step_after_fetch _ _ _ Hf).
    unfold dispatch. rewrite Hop. reflexivity. }
  split.
  { pose proof (signed_field_range (instruction & 0x1FF) 9 ltac:(lia) Hfield)
      as Hrange.
    change (2 ^ (9 - 1)) with 256 in Hrange. exact Hrange. }
  destruct (truthy (m & f)) eqn:E.
  - apply truthy_iff in E. cbn [reg memory running key_ready stdin stdout set_regs].
    rewrite upd_same, Htarget.
    split; [reflexivity |]. split; [contradiction |].
    split; [intros r Hr; apply upd_other; exact Hr |].
    do 5 (split; [reflexivity |]).
    intros s0 Hf Hop. rewrite (Hstep s0 Hf Hop), br_runs. fold m f.
    apply truthy_iff in E. rewrite E, Htarget.
    split; [reflexivity |]. split; [| apply truthy_iff in E; contradiction].
    intros _. destruct (fetch_effect _ _ _ Hf) as (-> & _). reflexivity.
  - apply truthy_false_iff in E.
    split; [contradiction |].
    do 7 (split; [reflexivity |]).
    intros s0 Hf Hop. rewrite (Hstep s0 Hf Hop), br_runs. fold m f.
    apply truthy_false_iff in E. rewrite E.
    split; [reflexivity |]. split; [apply truthy_false_iff in E; contradiction |].
    intros _. destruct (fetch_effect _ _ _ Hf) as (-> & _). reflexivity.
Qed.

(** BR with mask N|Z|P and offset -1 (0x0FFF), flag NEGATIVE, PC 0x3001:
    taken, one cell back. *)
Lemma br_branches_on_mask_witness :
  exists s',
    br 0x0FFF (demo_cpu 0x3001 FL_NEG 0) = Ok tt s' /\
    reg s' R_PC = 0x3000.
Proof.
  destruct (br_branches_on_mask 0x0FFF (demo_cpu 0x3001 FL_NEG 0))
    as (s' & Hrun & _ & Htaken & _).
  exists s'. split; [exact Hrun |].
  rewrite Htaken; [reflexivity | vm_compute; discriminate].
Defined.

(** BR with mask N|Z while the flag is POSITIVE: not taken. *)
Example br_not_taken :
  exists s',
    br 0x0C05 (demo_cpu 0x3001 FL_POS 0) = Ok tt s' /\ reg s' R_PC = 0x3001.
Proof. eexists. split; reflexivity. Qed.

(** ** JSR and JSRR *)

Lemma jsr_runs (instruction : Z) (s : vm) :
  jsr instruction s =
  let saved := set_regs (upd (reg s) R_R7 (reg s R_PC)) s in
  Ok tt (set_regs
           (upd (reg saved) R_PC
              (if truthy ((instruction >> 11) & 0x1)
               then u16 (reg saved R_PC +
                         sign_extend (instruction & 0x7FF) 11)
               else reg saved ((instruction >> 6) & 0x7)))
           saved).
Proof.
  unfold jsr. repeat run_step.
  destruct (truthy _); repeat run_step; reflexivity.
Qed.

(** C9. JSRR (long flag 0) whose base register field is 7: R7 first
    receives the PC (already moved past the instruction by the fetch), and
    the base register is read after that, so the new PC is that same saved
    PC and not what R7 held before. *)
Theorem jsrr_base_r7_reads_saved_pc (instruction : Z) (s : vm) :
  (instruction >> 11) & 0x1 = 0 ->
  (instruction >> 6) & 0x7 = R_R7 ->
  exists s',
    jsr instruction s = Ok tt s' /\
    reg s' R_R7 = reg s R_PC /\
    reg s' R_PC = reg s' R_R7 /\
    (reg s R_R7 <> reg s R_PC -> reg s' R_PC <> reg s R_R7) /\
    (forall s0,
       fetch s0 = Ok instruction s -> instruction >> 12 = OP_JSR ->
       step s0 = Ok tt s' /\ reg s' R_PC = u16 (reg s0 R_PC + 1)).
Proof.
  intros Hflag Hbase.
  set (saved := upd (reg s) R_R7 (reg s R_PC)).
  assert (jsr instruction s =
          Ok tt (set_regs (upd saved R_PC (reg s R_PC)) s)) as Hrun.
  { rewrite jsr_runs. cbv zeta. rewrite Hflag, Hbase.
    change (truthy 0) with false. cbv iota. cbn [reg set_regs]. fold saved.
    unfold saved at 2. rewrite upd_same. reflexivity. }
  exists (set_regs (upd saved R_PC (reg s R_PC)) s).
  cbn [reg set_regs].
  assert (upd saved R_PC (reg s R_PC) R_R7 = reg s R_PC) as Hr7.
  { rewrite upd_other by discriminate. apply upd_same. }
  rewrite Hr7, upd_same.
  split; [exact Hrun |]. split; [reflexivity |]. split; [reflexivity |].
  split; [intros Hne; congruence |].
  intros s0 Hf Hop. rewrite (step_after_fetch _ _ _ Hf).
  unfold dispatch. rewrite Hop.
  split; [exact Hrun | apply (fetch_effect _ _ _ Hf)].
Qed.

(** JSRR R7 (0x41C0) with the PC at 0x3001 and R7 holding 0x4000. *)
Lemma jsrr_base_r7_reads_saved_pc_witness :
  exists s',
    jsr 0x41C0 (demo_cpu 0x3001 FL_ZRO 0x4000) = Ok tt s' /\
    reg s' R_PC = 0x3001 /\ reg s' R_PC <> 0x4000.
Proof.
  destruct (jsrr_base_r7_reads_saved_pc 0x41C0 (demo_cpu 0x3001 FL_ZRO 0x4000))
    as (s' & Hrun & Hr7 & Hpc & Hold & _).
  - reflexivity.
  - reflexivity.
  - exists s'. split; [exact Hrun |]. split.
    + rewrite Hpc, Hr7. reflexivity.
    + apply Hold. vm_compute. discriminate.
Defined.

(** ** TRAP *)

(** C7. A TRAP whose vector (low 8 bits) is none of 0x20..0x25 returns
    and leaves the whole state as it was: registers, memory, [running]
    and terminal.  As a step of the loop it therefore ends in the state
    the fetch left, with the PC at the next instruction, and a running
    loop goes on from there. *)
Theorem trap_unknown_vector_ignored (instruction : Z) (s : vm) :
  ~ In (instruction & 0xFF) [0x20; 0x21; 0x22; 0x23; 0x24; 0x25] ->
  trap instruction s = Ok tt s /\
  (forall s0,
     fetch s0 = Ok instruction s -> instruction >> 12 = OP_TRAP ->
     step s0 = Ok tt s /\
     reg s R_PC = u16 (reg s0 R_PC + 1) /\
     running s = running s0 /\
     (forall n, truthy (running s0) = true -> run (S n) s0 = run n s)).
Proof.
  intros Hv.
  assert (trap instruction s = Ok tt s) as Htrap.
  { unfold trap.
    repeat match goal with
           | |- context [?v =? ?c] =>
               destruct (Z.eqb_spec v c) as [E | _];
               [exfalso; apply Hv; rewrite E; vm_compute; tauto |]
           end.
    reflexivity. }
  split; [exact Htrap |].
  intros s0 Hf Hop.
  assert (step s0 = Ok tt s) as Hstep.
  { rewrite (step_after_fetch _ _ _ Hf). unfold dispatch. rewrite Hop.
    exact Htrap. }
  destruct (fetch_effect _ _ _ Hf) as (Hpc & _ & Hrun).
  split; [exact Hstep |]. split; [exact Hpc |]. split; [exact Hrun |].
  intros n Hon. apply run_after_step; assumption.
Qed.

(** TRAP 0x26, the first vector past HALT. *)
Lemma trap_unknown_vector_ignored_witness :
  trap 0xF026 (demo_regs 5) = Ok tt (demo_regs 5).
Proof.
  apply (trap_unknown_vector_ignored 0xF026 (demo_regs 5)).
  vm_compute. intros H.
  repeat (destruct H as [H | H]; [discriminate H |]). exact H.
Defined.

(** ** GETC and IN *)

Lemma trap_getc_runs (s s1 : vm) (c : Z) :
  getchar s = Ok c s1 ->
  trap_getc s = Ok tt (set_regs (upd (reg s1) R_R0 (u16 c)) s1).
Proof.
  intros Hget. unfold trap_getc. rewrite (bind_Ok _ _ _ _ _ Hget).
  repeat run_step. reflexivity.
Qed.

Lemma getchar_after_printf (s s1 : vm) (c : Z) (text : string) :
  getchar s = Ok c s1 ->
  getchar (set_stdout (stdout s ++ list_ascii_of_string text) s) =
  Ok c (set_stdout (stdout s ++ list_ascii_of_string text) s1).
Proof.
  unfold getchar. cbn [stdin set_stdout].
  destruct (stdin s); intros [= <- <-]; reflexivity.
Qed.

Lemma trap_in_runs (s s1 : vm) (c : Z) :
  getchar s = Ok c s1 ->
  trap_in s =
  Ok tt (set_regs (upd (reg s1) R_R0 (u16 c))
           (set_stdout
              (stdout s ++ list_ascii_of_string "Enter a character: ") s1)).
Proof.
  intros Hget. unfold trap_in, printf. unfold bind at 1.
  rewrite (bind_Ok _ _ _ _ _ (getchar_after_printf _ _ _ _ Hget)).
  repeat run_step. reflexivity.
Qed.

(** C10. GETC and IN both return with register 0 replaced by the result
    of the blocking read converted to a word: a character, 0..255, as it
    is, with a zero high byte, and the end-of-input result -1 as 0xFFFF.
    No other register changes, the condition register included. *)
Theorem trap_getc_in_overwrite_r0 (s : vm) :
  exists c s1 s_getc s_in,
    getchar s = Ok c s1 /\
    (c = EOF \/ 0 <= c <= 255) /\
    trap_getc s = Ok tt s_getc /\
    trap_in s = Ok tt s_in /\
    reg s_getc R_R0 = u16 c /\
    reg s_in R_R0 = u16 c /\
    (0 <= c <= 255 -> u16 c = c /\ u16 c >> 8 = 0) /\
    (c = EOF -> u16 c = 0xFFFF) /\
    reg s_getc R_COND = reg s R_COND /\
    reg s_in R_COND = reg s R_COND /\
    (forall r, r <> R_R0 -> reg s_getc r = reg s r /\ reg s_in r = reg s r) /\
    (forall instruction,
       (instruction & 0xFF = TRAP_GETC -> trap instruction s = Ok tt s_getc) /\
       (instruction & 0xFF = TRAP_IN -> trap instruction s = Ok tt s_in)).
Proof.
  destruct (getchar_total s) as (c & s1 & Hget & Hc & _ & Hreg & _).
  exists c, s1. eexists _, _.
  split; [exact Hget |]. split; [exact Hc |].
  split; [apply (trap_getc_runs _ _ _ Hget) |].
  split; [apply (trap_in_runs _ _ _ Hget) |].
  cbn [reg set_regs set_stdout]. rewrite Hreg, upd_same.
  split; [reflexivity |]. split; [reflexivity |].
  split.
  { intros Hr. assert (u16 c = c) as ->.
    { apply u16_word. unfold is_word. lia. }
    split; [reflexivity |].
    rewrite Z.shiftr_div_pow2 by lia. apply Z.div_small.
    change (2 ^ 8) with 256. lia. }
  split; [intros ->; reflexivity |].
  split; [apply upd_other; discriminate |].
  split; [apply upd_other; discriminate |].
  split; [intros r Hr; rewrite upd_other by exact Hr; auto |].
  intros instruction. rewrite <- Hreg.
  split; intros Hv; unfold trap; rewrite Hv.
  - apply (trap_getc_runs _ _ _ Hget).
  - apply (trap_in_runs _ _ _ Hget).
Qed.

(** With "a" typed, register 0 becomes 97; the flag stays ZERO. *)
Lemma trap_getc_in_overwrite_r0_witness :
  exists s_getc s_in,
    trap_getc (set_stdin ["a"%char] (demo_cpu 0x3001 FL_ZRO 0)) = Ok tt s_getc /\
    trap_in (set_stdin ["a"%char] (demo_cpu 0x3001 FL_ZRO 0)) = Ok tt s_in /\
    reg s_getc R_R0 = 97 /\ reg s_in R_R0 = 97 /\
    reg s_getc R_R0 >> 8 = 0.
Proof.
  destruct (trap_getc_in_overwrite_r0
              (set_stdin ["a"%char] (demo_cpu 0x3001 FL_ZRO 0)))
    as (c & s1 & s_getc & s_in & Hget & _ & Hg & Hi & Hr0 & Hr0' & Hchar & _).
  injection Hget as <- <-.
  exists s_getc, s_in.
  destruct Hchar as (Hsame & Hhigh); [vm_compute; split; discriminate |].
  split; [exact Hg |]. split; [exact Hi |].
  rewrite Hr0, Hr0'. split; [exact Hsame |]. split; [exact Hsame |].
  exact Hhigh.
Defined.

(** At end of input register 0 becomes 0xFFFF. *)
Example trap_getc_at_eof :
  exists s', trap_getc (demo_regs 5) = Ok tt s' /\ reg s' R_R0 = 0xFFFF.
Proof. eexists. split; reflexivity. Qed.

(** ** The condition register along the run loop *)

Lemma preserves_set_running (I : vm -> Prop) (v : Z) :
  (forall s, I s -> I (set_running v s)) ->
  preserves I (fun s => Ok tt (set_running v s)).
Proof. intros H s HI. apply H. exact HI. Qed.

Ltac split_if :=
  match goal with
  | |- preserves _ (if _ then _ else _) => apply preserves_if
  end.

Ltac split_bind :=
  match goal with
  | |- preserves _ (bind _ _) => apply preserves_bind; [| intros ?]
  end.

(** Properties of the value of the condition register that hold of the
    three flag values. *)
Section CondRegister.

Variable P : Z -> Prop.
Hypothesis P_pos : P FL_POS.
Hypothesis P_zro : P FL_ZRO.
Hypothesis P_neg : P FL_NEG.

Let Inv (s : vm) : Prop := P (reg s R_COND).

Lemma cond_inv_frame (s s' : vm) :
  reg s' = reg s -> running s' = running s -> Inv s -> Inv s'.
Proof. unfold Inv. intros -> _ H. exact H. Qed.

Lemma preserves_set_reg (i v : Z) : i <> R_COND -> preserves Inv (set_reg i v).
Proof.
  intros Hi s H. unfold post, set_reg.
  destruct (in_array REG_LEN i); [| exact Logic.I].
  unfold Inv. cbn [reg set_regs]. rewrite upd_other by congruence. exact H.
Qed.

Lemma preserves_set_general (x v : Z) : preserves Inv (set_reg (x & 0x7) v).
Proof.
  apply preserves_set_reg. pose proof (field3_range x). unfold R_COND. lia.
Qed.

Lemma preserves_set_cond (v : Z) : P v -> preserves Inv (set_reg R_COND v).
Proof.
  intros Hv s _. unfold post, set_reg.
  destruct (in_array REG_LEN R_COND); [| exact Logic.I].
  unfold Inv. cbn [reg set_regs]. rewrite upd_same. exact Hv.
Qed.

Lemma preserves_update_flags (r : Z) : preserves Inv (update_flags r).
Proof.
  unfold update_flags.
  apply preserves_bind; [apply preserves_get_reg | intros v].
  repeat split_if; apply preserves_set_cond; assumption.
Qed.

(** Solves [preserves Inv m] for a computation built from the primitives. *)
Ltac keep :=
  repeat first
    [ apply preserves_ret
    | apply preserves_abort
    | apply preserves_get_reg
    | apply preserves_set_general
    | apply preserves_set_reg; discriminate
    | apply preserves_update_flags
    | apply preserves_mem_read; exact cond_inv_frame
    | apply preserves_mem_write; exact cond_inv_frame
    | apply preserves_getchar; exact cond_inv_frame
    | apply preserves_putc; exact cond_inv_frame
    | apply preserves_printf; exact cond_inv_frame
    | apply preserves_puts_loop; exact cond_inv_frame
    | apply preserves_putsp_loop; exact cond_inv_frame
    | apply preserves_set_running; intros ? H; exact H
    | split_if
    | split_bind ].

Lemma preserves_dispatch (instruction : Z) : preserves Inv (dispatch instruction).
Proof.
  unfold dispatch.
  repeat (split_if; [| try apply preserves_abort]).
  - unfold br. keep.
  - unfold add. cbv zeta. keep.
  - unfold ld. cbv zeta. keep.
  - unfold st. cbv zeta. keep.
  - unfold jsr. cbv zeta. keep.
  - unfold and. cbv zeta. keep.
  - unfold ldr. cbv zeta. keep.
  - unfold str. cbv zeta. keep.
  - unfold rti. keep.
  - unfold not. cbv zeta. keep.
  - unfold ldi. cbv zeta. keep.
  - unfold sti. cbv zeta. keep.
  - unfold jmp. cbv zeta. keep.
  - unfold res. keep.
  - unfold lea. cbv zeta. keep.
  - unfold trap. cbv zeta.
    repeat (split_if; [| try apply preserves_ret]).
    + unfold trap_puts. keep.
    + unfold trap_getc. keep.
    + unfold trap_out. keep.
    + unfold trap_in. keep.
    + unfold trap_putsp. keep.
    + unfold trap_halt. keep.
Qed.

Lemma preserves_step : preserves Inv step.
Proof.
  unfold step. apply preserves_bind; [| apply preserves_dispatch].
  unfold fetch. keep.
Qed.

Lemma preserves_run (n : nat) : preserves Inv (run n).
Proof.
  induction n as [| n IH].
  - apply preserves_ret.
  - intros s H. unfold post. cbn [run].
    destruct (truthy (running s)); [| exact H].
    apply (preserves_bind Inv step (fun _ => run n) preserves_step (fun _ => IH) s H).
Qed.

End CondRegister.

Lemma boot_cond (image : Z -> Z) (keys : list bool) (input : list ascii) :
  reg (boot image keys input) R_COND = 0.
Proof. reflexivity. Qed.

Lemma boot_pc (image : Z -> Z) (keys : list bool) (input : list ascii) :
  reg (boot image keys input) R_PC = PC_START /\
  running (boot image keys input) = 1 /\
  memory (boot image keys input) = image.
Proof. repeat split. Qed.

Lemma flag_valid_nonzero (s : vm) : flag_valid s -> reg s R_COND <> 0.
Proof. unfold flag_valid. intros [-> | [-> | ->]]; discriminate. Qed.

(** The claim C3 as stated fails where the run loop begins: with nothing
    loaded the condition register is 0, none of the three flag values,
    and it still is after the first instruction (a BR that is not taken). *)
Lemma cond_flag_invalid_at_loop_start :
  ~ flag_valid (boot (fun _ => 0) [] []) /\
  exists s', step (boot (fun _ => 0) [] []) = Ok tt s' /\ ~ flag_valid s'.
Proof.
  split.
  - intros H. apply flag_valid_nonzero in H. apply H. reflexivity.
  - eexists. split; [reflexivity |].
    intros H. apply flag_valid_nonzero in H. apply H. reflexivity.
Qed.

(** Whatever ends with [update_flags] ends with a flag value. *)
Lemma valid_after_update_flags (r : Z) (s : vm) :
  post (update_flags r) s (fun _ s' => flag_valid s').
Proof.
  unfold post. destruct (update_flags r s) as [[] s' | s' |] eqn:E;
    [| exact I | exact I].
  apply (update_flags_valid r s s' E).
Qed.

Lemma valid_after_bind {A B} (m : M A) (f : A -> M B) :
  (forall a s, post (f a) s (fun _ s' => flag_valid s')) ->
  forall s, post (bind m f) s (fun _ s' => flag_valid s').
Proof.
  intros Hf s. unfold post, bind.
  destruct (m s) as [a t | t |]; [| exact I | exact I].
  apply Hf.
Qed.

Ltac ends_with_flags :=
  cbv zeta;
  repeat match goal with
         | |- post (bind _ _) _ _ => apply valid_after_bind; intros ? ?; cbv beta
         end;
  apply valid_after_update_flags.

(** The seven instructions that end with [update_flags]. *)
Lemma flag_setting_handlers (handler : Z -> M unit) (instruction : Z) (s : vm) :
  In handler [add; and; not; ld; ldi; ldr; lea] ->
  post (handler instruction) s (fun _ s' => flag_valid s').
Proof.
  intros Hin. cbn [In] in Hin.
  destruct Hin as [<- | [<- | [<- | [<- | [<- | [<- | [<- | []]]]]]]].
  - unfold add. ends_with_flags.
  - unfold and. ends_with_flags.
  - unfold not. ends_with_flags.
  - unfold ld. ends_with_flags.
  - unfold ldi. ends_with_flags.
  - unfold ldr. ends_with_flags.
  - unfold lea. ends_with_flags.
Qed.

Lemma flag_setting_dispatch (instruction : Z) :
  In (instruction >> 12) [OP_ADD; OP_AND; OP_NOT; OP_LD; OP_LDI; OP_LDR; OP_LEA] ->
  exists handler,
    In handler [add; and; not; ld; ldi; ldr; lea] /\
    dispatch instruction = handler instruction.
Proof.
  cbn [In]. unfold dispatch. cbv zeta.
  intros [<- | [<- | [<- | [<- | [<- | [<- | [<- | []]]]]]]].
  - exists add. split; [cbn [In]; auto 10 | reflexivity].
  - exists and. split; [cbn [In]; auto 10 | reflexivity].
  - exists not. split; [cbn [In]; auto 10 | reflexivity].
  - exists ld. split; [cbn [In]; auto 10 | reflexivity].
  - exists ldi. split; [cbn [In]; auto 10 | reflexivity].
  - exists ldr. split; [cbn [In]; auto 10 | reflexivity].
  - exists lea. split; [cbn [In]; auto 10 | reflexivity].
Qed.

(** C3 (amended). When the run loop begins the condition register holds
    0, which is none of NEGATIVE, ZERO and POSITIVE.  Every
    fetch-decode-execute step that completes keeps the register among the
    three flag values once it holds one, and keeps it 0 or a flag value in
    any case, so that is what it holds after any number of steps from the
    start.  Each of ADD, AND, NOT, LD, LDI, LDR and LEA, when it completes,
    leaves one of the three flag values in the register, whatever it held
    before, as a handler and as a step of the loop; so does [update_flags],
    with which each of them ends. *)
Theorem cond_flag_along_run :
  (forall image keys input,
     reg (boot image keys input) R_COND = 0 /\
     ~ flag_valid (boot image keys input)) /\
  (forall s s', flag_valid s -> step s = Ok tt s' -> flag_valid s') /\
  (forall s s',
     flag_unset_or_valid s -> step s = Ok tt s' -> flag_unset_or_valid s') /\
  (forall n image keys input s',
     run n (boot image keys input) = Ok tt s' -> flag_unset_or_valid s') /\
  (forall r s s', update_flags r s = Ok tt s' -> flag_valid s') /\
  (forall handler instruction s s',
     In handler [add; and; not; ld; ldi; ldr; lea] ->
     handler instruction s = Ok tt s' -> flag_valid s') /\
  (forall s0 s s' instruction,
     fetch s0 = Ok instruction s ->
     In (instruction >> 12)
        [OP_ADD; OP_AND; OP_NOT; OP_LD; OP_LDI; OP_LDR; OP_LEA] ->
     step s0 = Ok tt s' -> flag_valid s').
Proof.
  split; [| split; [| split; [| split; [| split; [| split]]]]].
  - intros image keys input. split; [reflexivity |].
    intros H. apply flag_valid_nonzero in H. apply H. reflexivity.
  - intros s s' H Hstep.
    apply (post_Ok step s s' tt (fun _ t => flag_valid t)); [| exact Hstep].
    apply (preserves_step
             (fun v => v = FL_NEG \/ v = FL_ZRO \/ v = FL_POS)); auto.
  - intros s s' H Hstep.
    apply (post_Ok step s s' tt (fun _ t => flag_unset_or_valid t));
      [| exact Hstep].
    apply (preserves_step
             (fun v => v = 0 \/ v = FL_NEG \/ v = FL_ZRO \/ v = FL_POS)); auto.
  - intros n image keys input s' Hrun.
    apply (post_Ok (run n) (boot image keys input) s' tt
             (fun _ t => flag_unset_or_valid t)); [| exact Hrun].
    apply (preserves_run
             (fun v => v = 0 \/ v = FL_NEG \/ v = FL_ZRO \/ v = FL_POS)); auto.
  - apply update_flags_valid.
  - intros handler instruction s s' Hin Hrun.
    apply (post_Ok (handler instruction) s s' tt (fun _ t => flag_valid t));
      [| exact Hrun].
    apply flag_setting_handlers. exact Hin.
  - intros s0 s s' instruction Hfetch Hop Hstep.
    rewrite (step_after_fetch _ _ _ Hfetch) in Hstep.
    destruct (flag_setting_dispatch instruction Hop) as (handler & Hin & Hd).
    rewrite Hd in Hstep.
    apply (post_Ok (handler instruction) s s' tt (fun _ t => flag_valid t));
      [| exact Hstep].
    apply flag_setting_handlers. exact Hin.
Qed.

(** From the start with ADD R1, R1, #3 at 0x3000: the first step takes the
    register from 0 to POSITIVE. *)
Lemma cond_flag_along_run_witness :
  exists s',
    step (boot (one_word_image 0x1263) [] []) = Ok tt s' /\
    flag_unset_or_valid s' /\ flag_valid s' /\ reg s' R_COND = FL_POS.
Proof.
  destruct cond_flag_along_run as (_ & _ & Hstep & _ & _ & _ & Hset).
  eexists. split; [reflexivity |]. split; [| split; [| reflexivity]].
  - apply (Hstep (boot (one_word_image 0x1263) [] [])); [| reflexivity].
    left. reflexivity.
  - apply (Hset (boot (one_word_image 0x1263) [] [])
             (set_regs (upd (reg (boot (one_word_image 0x1263) [] [])) R_PC 0x3001)
                (boot (one_word_image 0x1263) [] []))
             _ 0x1263).
    + reflexivity.
    + left. reflexivity.
    + reflexivity.
Defined.

(** ** Stored values stay words *)

Lemma triple_bind {A B} (P : vm -> Prop) (Q : A -> vm -> Prop)
      (R : B -> vm -> Prop) (m : M A) (f : A -> M B) :
  triple P m Q -> (forall a, triple (Q a) (f a) R) -> triple P (bind m f) R.
Proof.
  intros Hm Hf s HP. unfold post, bind.
  specialize (Hm s HP). unfold post in Hm.
  destruct (m s) as [a s' | s' |]; [| exact I | exact I].
  apply (Hf a s' Hm).
Qed.

Lemma triple_if {A} (P : vm -> Prop) (Q : A -> vm -> Prop) (b : bool)
      (m1 m2 : M A) :
  triple P m1 Q -> triple P m2 Q -> triple P (if b then m1 else m2) Q.
Proof. destruct b; auto. Qed.

Lemma triple_weaken {A} (P P' : vm -> Prop) (Q : A -> vm -> Prop) (m : M A) :
  (forall s, P' s -> P s) -> triple P m Q -> triple P' m Q.
Proof. intros H Hm s HP. apply Hm, H, HP. Qed.

Lemma triple_fact {A} (F : Prop) (P : vm -> Prop) (Q : A -> vm -> Prop)
      (m : M A) :
  (F -> triple P m Q) -> triple (fun s => F /\ P s) m Q.
Proof. intros H s (HF & HP). apply (H HF s HP). Qed.

Lemma triple_ret {A} (P : vm -> Prop) (a : A) : triple P (ret a) (fun _ => P).
Proof. intros s H. exact H. Qed.

Lemma triple_abort {A} (P : vm -> Prop) (Q : A -> vm -> Prop) :
  triple P abort Q.
Proof. intros s _. exact I. Qed.

Lemma ret_words {A} (a : A) : triple words (ret a) just_words.
Proof. intros s H. exact H. Qed.

Lemma get_reg_words (i : Z) : triple words (get_reg i) word_and_words.
Proof.
  intros s H. unfold post, get_reg.
  destruct (in_array REG_LEN i); [| exact I].
  split; [apply H | exact H].
Qed.

Lemma set_reg_words (i v : Z) :
  is_word v -> triple words (set_reg i v) just_words.
Proof.
  intros Hv s (Hr & Hm). unfold post, set_reg.
  destruct (in_array REG_LEN i); [| exact I].
  split; [| exact Hm]. intros j. cbn [reg set_regs]. unfold upd.
  destruct (j =? i); [exact Hv | apply Hr].
Qed.

Lemma load_words (i : Z) : triple words (load i) word_and_words.
Proof.
  intros s H. unfold post, load.
  destruct (in_array MEMORY_LEN i); [| exact I].
  split; [apply H | exact H].
Qed.

Lemma store_words (i v : Z) : is_word v -> triple words (store i v) just_words.
Proof.
  intros Hv s (Hr & Hm). unfold post, store.
  destruct (in_array MEMORY_LEN i); [| exact I].
  split; [exact Hr |]. intros j. cbn [memory set_memory]. unfold upd.
  destruct (j =? i); [exact Hv | apply Hm].
Qed.

Lemma words_frame (s s' : vm) :
  reg s' = reg s -> memory s' = memory s -> words s -> words s'.
Proof.
  unfold words. intros Hr Hm (H1 & H2). rewrite Hr, Hm. auto.
Qed.

Lemma getchar_words : triple words getchar just_words.
Proof.
  intros s H. unfold post, getchar.
  destruct (stdin s); [exact H | apply (words_frame s); auto].
Qed.

Lemma check_key_words : triple words check_key just_words.
Proof.
  intros s H. unfold post, check_key.
  destruct (key_ready s); [exact H | apply (words_frame s); auto].
Qed.

Lemma putc_words (c : Z) : triple words (putc c) just_words.
Proof. intros s H. apply (words_frame s); auto. Qed.

Lemma printf_words (text : string) : triple words (printf text) just_words.
Proof. intros s H. apply (words_frame s); auto. Qed.

Lemma mem_read_words (addr : Z) : triple words (mem_read addr) word_and_words.
Proof.
  unfold mem_read.
  apply (triple_bind _ just_words); [| intros ?; apply load_words].
  apply triple_if; [| apply ret_words].
  apply (triple_bind _ just_words); [apply check_key_words | intros k].
  apply triple_if; [| apply store_words; unfold is_word; lia].
  apply (triple_bind _ just_words);
    [apply store_words; unfold is_word; cbn; lia | intros ?].
  apply (triple_bind _ just_words); [apply getchar_words | intros c].
  apply store_words, u16_is_word.
Qed.

Lemma update_flags_words (r : Z) : triple words (update_flags r) just_words.
Proof.
  unfold update_flags.
  apply (triple_bind _ word_and_words); [apply get_reg_words | intros v].
  apply triple_fact. intros _.
  repeat apply triple_if; apply set_reg_words; unfold is_word; cbn; lia.
Qed.

Ltac word_side := solve [assumption | apply u16_is_word].

(** Solves [triple words m just_words] for a computation built from the
    primitives, keeping the facts that values read are words. *)
Ltac keep_words :=
  repeat
    match goal with
    | |- triple (word_and_words _) _ _ =>
        unfold word_and_words at 1; apply triple_fact; intros ?
    | |- triple (just_words _) _ _ => unfold just_words at 1
    | |- triple words (if _ then _ else _) _ => apply triple_if
    | |- triple words (bind (get_reg _) _) _ =>
        apply (triple_bind _ word_and_words); [apply get_reg_words | intros ?]
    | |- triple words (bind (mem_read _) _) _ =>
        apply (triple_bind _ word_and_words); [apply mem_read_words | intros ?]
    | |- triple words (bind (load _) _) _ =>
        apply (triple_bind _ word_and_words); [apply load_words | intros ?]
    | |- triple words (bind _ _) _ =>
        apply (triple_bind _ just_words); [| intros ?]
    | |- triple words (ret _) _ => apply ret_words
    | |- triple words abort _ => apply triple_abort
    | |- triple words (set_reg _ _) _ => apply set_reg_words; word_side
    | |- triple words (mem_write _ _) _ => apply store_words; word_side
    | |- triple words (update_flags _) _ => apply update_flags_words
    | |- triple words getchar _ => apply getchar_words
    | |- triple words (putc _) _ => apply putc_words
    | |- triple words (printf _) _ => apply printf_words
    end.

Lemma puts_loop_words (fuel : nat) (c : Z) :
  triple words (puts_loop fuel c) just_words.
Proof.
  revert c. induction fuel as [| fuel IH]; intros c.
  - intros s _. exact I.
  - cbn [puts_loop]. keep_words. apply IH.
Qed.

Lemma putsp_loop_words (fuel : nat) (c : Z) :
  triple words (putsp_loop fuel c) just_words.
Proof.
  revert c. induction fuel as [| fuel IH]; intros c.
  - intros s _. exact I.
  - cbn [putsp_loop]. cbv zeta. keep_words. apply IH.
Qed.

Lemma trap_words (instruction : Z) : triple words (trap instruction) just_words.
Proof.
  unfold trap. cbv zeta. repeat apply triple_if.
  - unfold trap_puts. keep_words. apply puts_loop_words.
  - unfold trap_getc. keep_words.
  - unfold trap_out. keep_words.
  - unfold trap_in. keep_words.
  - unfold trap_putsp. keep_words. apply putsp_loop_words.
  - unfold trap_halt. keep_words.
    intros s H. apply (words_frame s); auto.
  - apply ret_words.
Qed.

Lemma dispatch_words (instruction : Z) :
  triple words (dispatch instruction) just_words.
Proof.
  unfold dispatch. cbv zeta.
  repeat match goal with
         | |- triple words (if _ then _ else _) _ => apply triple_if
         end;
    try apply trap_words; try apply triple_abort.
  - unfold br. keep_words.
  - unfold add. cbv zeta. keep_words.
  - unfold ld. cbv zeta. keep_words.
  - unfold st. cbv zeta. keep_words.
  - unfold jsr. cbv zeta. keep_words.
  - unfold and. cbv zeta. keep_words.
  - unfold ldr. cbv zeta. keep_words.
  - unfold str. cbv zeta. keep_words.
  - unfold not. cbv zeta. keep_words.
  - unfold ldi. cbv zeta. keep_words.
  - unfold sti. cbv zeta. keep_words.
  - unfold jmp. cbv zeta. keep_words.
  - unfold lea. cbv zeta. keep_words.
Qed.

Lemma step_words : triple words step just_words.
Proof.
  unfold step. apply (triple_bind _ word_and_words).
  - unfold fetch. keep_words. apply mem_read_words.
  - intros instruction. keep_words. apply dispatch_words.
Qed.

Lemma run_words (n : nat) : triple words (run n) just_words.
Proof.
  induction n as [| n IH].
  - apply ret_words.
  - intros s H. unfold post. cbn [run].
    destruct (truthy (running s)); [| exact H].
    apply (triple_bind words just_words just_words step (fun _ => run n)
             step_words (fun _ => IH) s H).
Qed.

(** X19. Every value the machine stores is a word: from a start with a
    word-valued image, all registers and cells hold words after any number
    of completed steps. *)
Lemma run_keeps_words (n : nat) (image : Z -> Z) (keys : list bool)
      (input : list ascii) (s' : vm) :
  (forall a, is_word (image a)) ->
  run n (boot image keys input) = Ok tt s' -> words s'.
Proof.
  intros Himage Hrun.
  apply (post_Ok (run n) (boot image keys input) s' tt just_words);
    [| exact Hrun].
  apply run_words. split; [| exact Himage].
  intros i. change (reg (boot image keys input)) with (upd (fun _ => 0) R_PC PC_START).
  unfold upd, is_word, PC_START. destruct (i =? R_PC); lia.
Qed.

(** ** The string traps *)

Lemma bind_ext {A B} (m : M A) (f g : A -> M B) (s : vm) :
  (forall a s', m s = Ok a s' -> f a s' = g a s') ->
  bind m f s = bind m g s.
Proof.
  intros H. unfold bind. destruct (m s) as [a s' | s' |]; auto.
Qed.

(** Once the fuel covers the cells from [c] to the end of [memory], more of
    it changes nothing: the walk stops at a zero word or leaves the array
    before the fuel runs out. *)
Lemma puts_loop_fuel (n m : nat) (c : Z) (s : vm) :
  MEMORY_LEN - c <= Z.of_nat n -> MEMORY_LEN - c <= Z.of_nat m ->
  puts_loop n c s = puts_loop m c s.
Proof.
  revert m c s. induction n as [| n IH]; intros m c s Hn Hm.
  - destruct m as [| m]; [reflexivity |].
    cbn [puts_loop]. rewrite bind_OutOfBounds; [reflexivity |].
    apply load_out. lia.
  - destruct m as [| m].
    + cbn [puts_loop]. rewrite bind_OutOfBounds; [reflexivity |].
      apply load_out. lia.
    + cbn [puts_loop]. apply bind_ext. intros w s1 _.
      destruct (truthy w); [| reflexivity].
      apply bind_ext. intros _ s2 _. apply IH; lia.
Qed.

Lemma trap_puts_fuel (n : nat) (c : Z) (s : vm) :
  (S (Z.to_nat MEMORY_LEN) <= n)%nat ->
  puts_loop n c s = puts_loop (S (Z.to_nat MEMORY_LEN)) c s.
Proof.
  intros Hn. destruct (Z.lt_ge_cases c 0) as [Hneg | Hpos].
  - destruct n as [| n]; [lia |]. cbn [puts_loop].
    assert (load c s = OutOfBounds) as Hload.
    { unfold load, in_array. destruct (Z.leb_spec 0 c); [lia | reflexivity]. }
    rewrite !bind_OutOfBounds by exact Hload. reflexivity.
  - apply puts_loop_fuel; unfold MEMORY_LEN, UINT16_MAX in *; lia.
Qed.

Lemma putsp_loop_fuel (n m : nat) (c : Z) (s : vm) :
  MEMORY_LEN - c <= Z.of_nat n -> MEMORY_LEN - c <= Z.of_nat m ->
  putsp_loop n c s = putsp_loop m c s.
Proof.
  revert m c s. induction n as [| n IH]; intros m c s Hn Hm.
  - destruct m as [| m]; [reflexivity |].
    cbn [putsp_loop]. rewrite bind_OutOfBounds; [reflexivity |].
    apply load_out. lia.
  - destruct m as [| m].
    + cbn [putsp_loop]. rewrite bind_OutOfBounds; [reflexivity |].
      apply load_out. lia.
    + cbn [putsp_loop]. apply bind_ext. intros w s1 _.
      destruct (truthy w); [| reflexivity]. cbv zeta.
      apply bind_ext. intros _ s2 _.
      apply bind_ext. intros _ s3 _. apply IH; lia.
Qed.

Lemma trap_putsp_fuel (n : nat) (c : Z) (s : vm) :
  (S (Z.to_nat MEMORY_LEN) <= n)%nat ->
  putsp_loop n c s = putsp_loop (S (Z.to_nat MEMORY_LEN)) c s.
Proof.
  intros Hn. destruct (Z.lt_ge_cases c 0) as [Hneg | Hpos].
  - destruct n as [| n]; [lia |]. cbn [putsp_loop].
    assert (load c s = OutOfBounds) as Hload.
    { unfold load, in_array. destruct (Z.leb_spec 0 c); [lia | reflexivity]. }
    rewrite !bind_OutOfBounds by exact Hload. reflexivity.
  - apply putsp_loop_fuel; unfold MEMORY_LEN, UINT16_MAX in *; lia.
Qed.

(** ** The testable properties of the specification, run on the model *)

(** ADD R0, R1, #-3 with R1 = 5 gives 2 and POSITIVE. *)
Example add_immediate :
  regs_after 1 (set_regs (upd (reg (boot (one_word_image 0x107D) [] [])) R_R1 5)
                  (boot (one_word_image 0x107D) [] []))
    [R_R0; R_COND] = Some [2; FL_POS].
Proof. reflexivity. Qed.

(** AND R0, R1, R2 with R1 = 0xF0F0 and R2 = 0x0FF0. *)
Example and_registers :
  regs_after 1
    (set_regs (upd (upd (reg (boot (one_word_image 0x5042) [] [])) R_R1 0xF0F0)
                 R_R2 0x0FF0)
       (boot (one_word_image 0x5042) [] []))
    [R_R0; R_COND] = Some [0x00F0; FL_POS].
Proof. reflexivity. Qed.

(** LDI R0 through the pointer at 0x3002 to the 42 stored at 0x4000. *)
Example ldi_round_trip :
  regs_after 1
    (boot (image_of [(0x3000, 0xA001); (0x3002, 0x4000); (0x4000, 42)]) [] [])
    [R_R0; R_COND] = Some [42; FL_POS].
Proof. reflexivity. Qed.

(** LEA R0, PUTS, HALT on the string "Hi". *)
Example puts_hi :
  output_after 5
    (boot (image_of [(0x3000, 0xE002); (0x3001, 0xF022); (0x3002, 0xF025);
                     (0x3003, 72); (0x3004, 105)]) [] [])
  = Some (String.append "Hi" (String.append "Halting execution"
                                (String newline EmptyString))).
Proof. reflexivity. Qed.

(** PUTSP on a word with "A" in the low byte and a zero high byte. *)
Example putsp_a :
  output_after 2
    (boot (image_of [(0x3000, 0xE002); (0x3001, 0xF024); (0x3003, 65)]) [] [])
  = Some "A"%string.
Proof. reflexivity. Qed.

(** RTI stops the machine with [abort()]. *)
Example rti_aborts :
  exists s, step (boot (one_word_image 0x8000) [] []) = Aborted s.
Proof. eexists. reflexivity. Qed.

(** * Further properties of the code *)

(** ** change_endian *)

Lemma word_high_bits (v i : Z) : is_word v -> 16 <= i -> Z.testbit v i = false.
Proof.
  unfold is_word. intros Hv Hi.
  destruct (Z.eq_dec v 0) as [-> | Hne]; [apply Z.bits_0 |].
  apply Z.bits_above_log2; [lia |].
  assert (Z.log2 v < 16) by (apply Z.log2_lt_pow2; [lia | simpl; lia]). lia.
Qed.

Lemma change_endian_bits (v i : Z) :
  is_word v -> 0 <= i < 16 ->
  Z.testbit (change_endian v) i =
  if i <? 8 then Z.testbit v (i + 8) else Z.testbit v (i - 8).
Proof.
  intros Hv Hi. unfold change_endian, u16. change 65536 with (2 ^ 16).
  rewrite Z.mod_pow2_bits_low by lia.
  rewrite Z.lor_spec, Z.shiftl_spec, Z.shiftr_spec by lia.
  destruct (Z.ltb_spec i 8).
  - rewrite (Z.testbit_neg_r v (i - 8)) by lia. reflexivity.
  - rewrite (word_high_bits v (i + 8)) by (assumption || lia).
    apply orb_false_r.
Qed.

Lemma words_equal_by_bits (a b : Z) :
  is_word a -> is_word b ->
  (forall i, 0 <= i < 16 -> Z.testbit a i = Z.testbit b i) -> a = b.
Proof.
  intros Ha Hb H. apply Z.bits_inj'. intros i Hi.
  destruct (Z.lt_ge_cases i 16).
  - apply H. lia.
  - rewrite !word_high_bits by (assumption || lia). reflexivity.
Qed.

(** X1. On a word, [change_endian] exchanges the two bytes: the item whose
    bytes are b0 (low) and b1 (high) becomes the one with b1 low and b0
    high, which is again a word, and exchanging twice gives the word back. *)
Theorem change_endian_swaps_bytes (v : Z) :
  is_word v ->
  is_word (change_endian v) /\
  change_endian v = 256 * (v mod 256) + v / 256 /\
  change_endian (change_endian v) = v.
Proof.
  intros Hv.
  assert (is_word (change_endian v)) as Hc by apply u16_is_word.
  split; [exact Hc |]. split.
  - assert (0 <= v / 256 < 256) as Hhi.
    { unfold is_word in Hv.
      split; [apply Z.div_pos; lia | apply Z.div_lt_upper_bound; lia]. }
    pose proof (Z.mod_pos_bound v 256 ltac:(lia)) as Hlo.
    pose proof (Z.div_mod v 256 ltac:(lia)) as Hdm.
    assert (Z.land (v << 8) (v >> 8) = 0) as Hdisjoint.
    { apply Z.bits_inj'. intros i Hi.
      rewrite Z.land_spec, Z.shiftl_spec, Z.shiftr_spec, Z.bits_0 by lia.
      destruct (Z.lt_ge_cases i 8).
      - rewrite (Z.testbit_neg_r v (i - 8)) by lia. reflexivity.
      - rewrite (word_high_bits v (i + 8)) by (assumption || lia).
        apply andb_false_r. }
    unfold change_endian.
    rewrite <- Z.lxor_lor, <- Z.add_nocarry_lxor by exact Hdisjoint.
    rewrite Z.shiftl_mul_pow2, Z.shiftr_div_pow2 by lia.
    change (2 ^ 8) with 256. unfold u16.
    replace (v * 256 + v / 256)
      with (256 * (v mod 256) + v / 256 + (v / 256) * 65536) by lia.
    rewrite Z.mod_add by lia. apply Z.mod_small. lia.
  - apply words_equal_by_bits; [apply u16_is_word | exact Hv |].
    intros i Hi. rewrite change_endian_bits by assumption.
    destruct (Z.ltb_spec i 8).
    + rewrite change_endian_bits by (assumption || lia).
      destruct (Z.ltb_spec (i + 8) 8); [lia |]. f_equal. lia.
    + rewrite change_endian_bits by (assumption || lia).
      destruct (Z.ltb_spec (i - 8) 8); [| lia]. f_equal. lia.
Qed.

Lemma change_endian_swaps_bytes_witness :
  change_endian 0x0030 = 0x3000 /\ change_endian (change_endian 0x0030) = 0x0030.
Proof.
  destruct (change_endian_swaps_bytes 0x0030) as (_ & Hval & Hback).
  - unfold is_word. lia.
  - split; [rewrite Hval; reflexivity | exact Hback].
Defined.

(** ** Image loading *)

Lemma memory_only_refl (s : vm) : memory_only s s.
Proof. repeat split. Qed.

Lemma memory_only_trans (s t u : vm) :
  memory_only s t -> memory_only t u -> memory_only s u.
Proof.
  unfold memory_only. intros (A1 & A2 & A3 & A4 & A5) (B1 & B2 & B3 & B4 & B5).
  repeat split; congruence.
Qed.

Lemma in_range_test (lo n a : Z) :
  (lo <=? a) && (a <? lo + n) = true <-> lo <= a < lo + n.
Proof. rewrite andb_true_iff, Z.leb_le, Z.ltb_lt. tauto. Qed.

Lemma fread_items_runs (items : list Z) (p : Z) (s : vm) :
  0 <= p -> p + Z.of_nat (List.length items) <= MEMORY_LEN ->
  exists s',
    fread_items p items s = Ok tt s' /\
    memory_only s s' /\
    forall a,
      memory s' a =
      if (p <=? a) && (a <? p + Z.of_nat (List.length items))
      then nth (Z.to_nat (a - p)) items 0
      else memory s a.
Proof.
  revert p s. induction items as [| w items IH]; intros p s Hp Hfit.
  - exists s. split; [reflexivity |]. split; [apply memory_only_refl |].
    intros a. cbn [List.length Z.of_nat].
    destruct ((p <=? a) && (a <? p + 0)) eqn:E; [| reflexivity].
    apply in_range_test in E. lia.
  - cbn [List.length] in Hfit. rewrite Nat2Z.inj_succ in Hfit.
    cbn [fread_items]. unfold bind at 1.
    rewrite store_in by lia.
    destruct (IH (p + 1) (set_memory (upd (memory s) p w) s))
      as (s' & Hrun & Hframe & Hmem); [lia | lia |].
    exists s'. split; [exact Hrun |].
    split; [apply (memory_only_trans _ _ _ (memory_only_refl s)); exact Hframe |].
    intros a. rewrite Hmem. cbn [List.length memory set_memory].
    rewrite Nat2Z.inj_succ.
    destruct ((p + 1 <=? a) && (a <? p + 1 + Z.of_nat (List.length items))) eqn:E1;
      destruct ((p <=? a) && (a <? p + Z.succ (Z.of_nat (List.length items)))) eqn:E2.
    + apply in_range_test in E1.
      replace (Z.to_nat (a - p)) with (S (Z.to_nat (a - (p + 1)))) by lia.
      reflexivity.
    + apply in_range_test in E1.
      assert (p <= a < p + Z.succ (Z.of_nat (List.length items))) as H by lia.
      apply in_range_test in H. congruence.
    + apply in_range_test in E2.
      assert (a = p) as ->.
      { destruct (Z.eq_dec a p) as [-> | Hne]; [reflexivity |].
        assert (p + 1 <= a < p + 1 + Z.of_nat (List.length items)) as H by lia.
        apply in_range_test in H. congruence. }
      rewrite upd_same, Z.sub_diag. reflexivity.
    + apply upd_other. intros ->.
      assert (p <= p < p + Z.succ (Z.of_nat (List.length items))) as H by lia.
      apply in_range_test in H. congruence.
Qed.

Lemma swap_loop_runs (read : nat) (p : Z) (s : vm) :
  0 <= p -> p + Z.of_nat read <= MEMORY_LEN ->
  exists s',
    swap_loop read p s = Ok tt s' /\
    memory_only s s' /\
    forall a,
      memory s' a =
      if (p <=? a) && (a <? p + Z.of_nat read)
      then change_endian (memory s a)
      else memory s a.
Proof.
  revert p s. induction read as [| read IH]; intros p s Hp Hfit.
  - exists s. split; [reflexivity |]. split; [apply memory_only_refl |].
    intros a. cbn [Z.of_nat].
    destruct ((p <=? a) && (a <? p + 0)) eqn:E; [| reflexivity].
    apply in_range_test in E. lia.
  - rewrite Nat2Z.inj_succ in Hfit.
    cbn [swap_loop]. unfold bind at 1. rewrite load_in by lia.
    unfold bind at 1. rewrite store_in by lia.
    destruct (IH (p + 1)
                (set_memory (upd (memory s) p (change_endian (memory s p))) s))
      as (s' & Hrun & Hframe & Hmem); [lia | lia |].
    exists s'. split; [exact Hrun |].
    split; [apply (memory_only_trans _ _ _ (memory_only_refl s)); exact Hframe |].
    intros a. rewrite Hmem. cbn [memory set_memory]. rewrite Nat2Z.inj_succ.
    destruct ((p + 1 <=? a) && (a <? p + 1 + Z.of_nat read)) eqn:E1;
      destruct ((p <=? a) && (a <? p + Z.succ (Z.of_nat read))) eqn:E2.
    + apply in_range_test in E1. rewrite upd_other by lia. reflexivity.
    + apply in_range_test in E1.
      assert (p <= a < p + Z.succ (Z.of_nat read)) as H by lia.
      apply in_range_test in H. congruence.
    + apply in_range_test in E2.
      assert (a = p) as ->.
      { destruct (Z.eq_dec a p) as [-> | Hne]; [reflexivity |].
        assert (p + 1 <= a < p + 1 + Z.of_nat read) as H by lia.
        apply in_range_test in H. congruence. }
      apply upd_same.
    + apply upd_other. intros ->.
      assert (p <= p < p + Z.succ (Z.of_nat read)) as H by lia.
      apply in_range_test in H. congruence.
Qed.

Lemma image_fits (stale : Z) (file : list Z) :
  0 <= image_origin stale file /\
  image_origin stale file + Z.of_nat (List.length (image_words stale file))
  <= UINT16_MAX /\
  Z.of_nat (List.length (image_words stale file)) =
  Z.min (Z.of_nat (List.length (tl file)))
        (UINT16_MAX - image_origin stale file).
Proof.
  pose proof (u16_is_word
                (Z.lor ((match file with [] => stale | w :: _ => w end) << 8)
                       ((match file with [] => stale | w :: _ => w end) >> 8)))
    as Ho.
  fold (change_endian (match file with [] => stale | w :: _ => w end)) in Ho.
  fold (image_origin stale file) in Ho. unfold is_word in Ho.
  unfold image_words. rewrite List.length_firstn.
  assert (u16 (UINT16_MAX - image_origin stale file) =
          UINT16_MAX - image_origin stale file) as ->.
  { apply u16_word. unfold is_word, UINT16_MAX. lia. }
  unfold UINT16_MAX in *. lia.
Qed.

Lemma read_image_file_runs (stale : Z) (file : list Z) (s : vm) :
  exists s',
    read_image_file stale file s = Ok tt s' /\
    memory_only s s' /\
    forall a, memory s' a = overlay stale file (memory s) a.
Proof.
  destruct (image_fits stale file) as (Ho & Hfit & _).
  unfold read_image_file. cbv zeta.
  fold (image_origin stale file). fold (image_words stale file).
  destruct (fread_items_runs (image_words stale file) (image_origin stale file) s)
    as (s1 & Hrun1 & Hframe1 & Hmem1);
    [exact Ho | unfold MEMORY_LEN; exact Hfit |].
  destruct (swap_loop_runs (List.length (image_words stale file))
              (image_origin stale file) s1)
    as (s2 & Hrun2 & Hframe2 & Hmem2);
    [exact Ho | unfold MEMORY_LEN; exact Hfit |].
  exists s2. split.
  - unfold bind. rewrite Hrun1. exact Hrun2.
  - split; [apply (memory_only_trans _ _ _ Hframe1 Hframe2) |].
    intros a. rewrite Hmem2, Hmem1. unfold overlay. cbv zeta.
    destruct ((image_origin stale file <=? a) &&
              (a <? image_origin stale file +
                    Z.of_nat (List.length (image_words stale file))));
      reflexivity.
Qed.

(** X2. Loading an image file always returns, whatever the file holds: no
    cell outside [memory] is touched, because at most [UINT16_MAX - origin]
    items are read (further items are dropped).  The cells from the origin
    on receive the items with their bytes exchanged; every other cell, all
    registers, [running] and the terminal stay as they were. *)
Theorem read_image_file_lays_image (stale : Z) (file : list Z) (s : vm) :
  exists s',
    read_image_file stale file s = Ok tt s' /\
    memory_only s s' /\
    (forall a, memory s' a = overlay stale file (memory s) a) /\
    (forall i,
       (i < List.length (image_words stale file))%nat ->
       memory s' (image_origin stale file + Z.of_nat i) =
       change_endian (nth i (tl file) 0)) /\
    (forall a,
       a < image_origin stale file \/
       image_origin stale file +
       Z.min (Z.of_nat (List.length (tl file)))
             (UINT16_MAX - image_origin stale file) <= a ->
       memory s' a = memory s a) /\
    0 <= image_origin stale file /\
    image_origin stale file + Z.of_nat (List.length (image_words stale file))
    <= UINT16_MAX.
Proof.
  destruct (read_image_file_runs stale file s) as (s' & Hrun & Hframe & Hmem).
  destruct (image_fits stale file) as (Ho & Hfit & Hlen).
  exists s'. split; [exact Hrun |]. split; [exact Hframe |].
  split; [exact Hmem |]. split; [| split; [| split; assumption]].
  - intros i Hi. rewrite Hmem. unfold overlay. cbv zeta.
    assert (image_origin stale file <= image_origin stale file + Z.of_nat i <
            image_origin stale file +
            Z.of_nat (List.length (image_words stale file))) as H by lia.
    apply in_range_test in H. rewrite H.
    replace (image_origin stale file + Z.of_nat i - image_origin stale file)
      with (Z.of_nat i) by lia.
    rewrite Nat2Z.id. f_equal. unfold image_words.
    unfold image_words in Hi. rewrite List.length_firstn in Hi.
    rewrite nth_firstn.
    destruct (Nat.ltb_spec i (Z.to_nat (u16 (UINT16_MAX - image_origin stale file))));
      [reflexivity | lia].
  - intros a Ha. rewrite Hmem. unfold overlay. cbv zeta.
    destruct ((image_origin stale file <=? a) &&
              (a <? image_origin stale file +
                    Z.of_nat (List.length (image_words stale file)))) eqn:E;
      [| reflexivity].
    apply in_range_test in E. lia.
Qed.

(** Two words at origin 0x3000: they land at 0x3000 and 0x3001 and the
    cell before the origin keeps its content. *)
Lemma read_image_file_lays_image_witness :
  exists s',
    read_image_file 0 (demo_file [0x0100; 0x0200]) (demo_regs 0) = Ok tt s' /\
    memory s' 0x3001 = 2 /\
    memory s' 0x2FFF = memory (demo_regs 0) 0x2FFF.
Proof.
  destruct (read_image_file_lays_image 0 (demo_file [0x0100; 0x0200])
              (demo_regs 0)) as (s' & Hrun & _ & _ & Hin & Hout & _).
  exists s'. split; [exact Hrun |]. split.
  - apply (Hin 1%nat). vm_compute. lia.
  - apply Hout. left. vm_compute. reflexivity.
Defined.

Lemma overlay_ext (stale : Z) (file : list Z) (m m' : Z -> Z) (a : Z) :
  m a = m' a -> overlay stale file m a = overlay stale file m' a.
Proof. intros H. unfold overlay. cbv zeta. rewrite H. reflexivity. Qed.

Lemma overlay_idempotent (stale : Z) (file : list Z) (m : Z -> Z) (a : Z) :
  overlay stale file (overlay stale file m) a = overlay stale file m a.
Proof.
  unfold overlay. cbv zeta.
  destruct ((image_origin stale file <=? a) && _); reflexivity.
Qed.

(** X3. Two loads in a row lay the second image over the first: each cell
    the second file fills holds the second file's item, every other cell
    is as the first load left it, and nothing reports the overlap.  Loading
    the same file again changes nothing. *)
Theorem read_image_file_twice (stale1 stale2 : Z) (file1 file2 : list Z)
        (s : vm) :
  exists s1 s2 s11,
    read_image_file stale1 file1 s = Ok tt s1 /\
    (read_image_file stale1 file1 ;; read_image_file stale2 file2) s =
    Ok tt s2 /\
    memory_only s s2 /\
    (forall i,
       (i < List.length (image_words stale2 file2))%nat ->
       memory s2 (image_origin stale2 file2 + Z.of_nat i) =
       change_endian (nth i (tl file2) 0)) /\
    (forall a,
       ~ (image_origin stale2 file2 <= a <
          image_origin stale2 file2 +
          Z.of_nat (List.length (image_words stale2 file2))) ->
       memory s2 a = memory s1 a) /\
    (read_image_file stale1 file1 ;; read_image_file stale1 file1) s =
    Ok tt s11 /\
    (forall a, memory s11 a = memory s1 a).
Proof.
  destruct (read_image_file_runs stale1 file1 s) as (s1 & Hrun1 & Hframe1 & Hmem1).
  destruct (read_image_file_runs stale2 file2 s1) as (s2 & Hrun2 & Hframe2 & Hmem2).
  destruct (read_image_file_runs stale1 file1 s1)
    as (s11 & Hrun11 & Hframe11 & Hmem11).
  exists s1, s2, s11.
  split; [exact Hrun1 |].
  split; [unfold bind; rewrite Hrun1; exact Hrun2 |].
  split; [apply (memory_only_trans _ _ _ Hframe1 Hframe2) |].
  split; [| split; [| split]].
  - intros i Hi. rewrite Hmem2. unfold overlay. cbv zeta.
    assert (image_origin stale2 file2 <= image_origin stale2 file2 + Z.of_nat i <
            image_origin stale2 file2 +
            Z.of_nat (List.length (image_words stale2 file2))) as H by lia.
    apply in_range_test in H. rewrite H.
    replace (image_origin stale2 file2 + Z.of_nat i - image_origin stale2 file2)
      with (Z.of_nat i) by lia.
    rewrite Nat2Z.id. f_equal. unfold image_words.
    unfold image_words in Hi. rewrite List.length_firstn in Hi.
    rewrite nth_firstn.
    destruct (Nat.ltb_spec i
                (Z.to_nat (u16 (UINT16_MAX - image_origin stale2 file2))));
      [reflexivity | lia].
  - intros a Ha. rewrite Hmem2. unfold overlay. cbv zeta.
    destruct ((image_origin stale2 file2 <=? a) && _) eqn:E; [| reflexivity].
    apply in_range_test in E. contradiction.
  - unfold bind. rewrite Hrun1. exact Hrun11.
  - intros a. rewrite Hmem11, Hmem1.
    rewrite (overlay_ext stale1 file1 (memory s1)
               (overlay stale1 file1 (memory s)) a (Hmem1 a)).
    apply overlay_idempotent.
Qed.

Lemma read_image_file_twice_witness :
  exists s2,
    (read_image_file 0 (demo_file [0x0100; 0x0200]) ;;
     read_image_file 0 (demo_file [0x0300])) (process_start [] []) = Ok tt s2 /\
    memory s2 0x3000 = 3 /\ memory s2 0x3001 = 2.
Proof.
  destruct (read_image_file_twice 0 0 (demo_file [0x0100; 0x0200])
              (demo_file [0x0300]) (process_start [] []))
    as (s1 & s2 & _ & Hrun1 & Hrun2 & _ & Hin & Hout & _).
  exists s2. split; [exact Hrun2 |]. split.
  - apply (Hin 0%nat). vm_compute. lia.
  - rewrite Hout.
    + injection Hrun1 as <-. reflexivity.
    + vm_compute. intros (_ & H). discriminate H.
Defined.

(** ** The start of main *)

Lemma overlay_all_ext (argv : list arg) (m m' : Z -> Z) :
  (forall a, m a = m' a) ->
  forall a, overlay_all argv m a = overlay_all argv m' a.
Proof.
  revert m m'. induction argv as [| x argv IH]; intros m m' H a.
  - apply H.
  - cbn [overlay_all fold_left].
    apply (IH _ _). intros b.
    destruct (opened x); [apply overlay_ext |]; apply H.
Qed.

Lemma overlay_all_app (before after : list arg) (m : Z -> Z) :
  overlay_all (before ++ after) m = overlay_all after (overlay_all before m).
Proof. unfold overlay_all. apply fold_left_app. Qed.

Lemma load_images_open (argv : list arg) (s : vm) :
  Forall opens argv ->
  exists s',
    load_images argv s = Ok None s' /\
    memory_only s s' /\
    forall a, memory s' a = overlay_all argv (memory s) a.
Proof.
  revert s. induction argv as [| x argv IH]; intros s Hopen.
  - exists s. split; [reflexivity |]. split; [apply memory_only_refl |].
    reflexivity.
  - inversion Hopen as [| ? ? Hx Hrest]; subst.
    unfold opens in Hx. cbn [load_images]. unfold read_image.
    destruct (opened x) as [file |] eqn:E; [| contradiction].
    destruct (read_image_file_runs (stale_origin x) file s)
      as (s1 & Hrun1 & Hframe1 & Hmem1).
    destruct (IH s1 Hrest) as (s' & Hrun & Hframe & Hmem).
    exists s'. split.
    + unfold bind. rewrite Hrun1. unfold ret. exact Hrun.
    + split; [apply (memory_only_trans _ _ _ Hframe1 Hframe) |].
      intros a. rewrite Hmem. cbn [overlay_all fold_left]. rewrite E.
      apply overlay_all_ext. exact Hmem1.
Qed.

Lemma load_images_fail (before after : list arg) (x : arg) (s : vm) :
  Forall opens before -> opened x = None ->
  exists s',
    load_images (before ++ x :: after) s = Ok (Some 1) s' /\
    (forall a, memory s' a = overlay_all before (memory s) a) /\
    reg s' = reg s /\ running s' = running s /\
    stdout s' =
    stdout s ++
    list_ascii_of_string (String.append "Failed to load image " (path x)) ++
    [newline].
Proof.
  revert s. induction before as [| y before IH]; intros s Hopen Hx.
  - cbn [app load_images]. rewrite Hx. unfold read_image.
    eexists. split; [reflexivity |].
    cbn [memory reg running stdout set_stdout]. repeat split.
    rewrite <- app_assoc. reflexivity.
  - inversion Hopen as [| ? ? Hy Hrest]; subst.
    unfold opens in Hy. cbn [app load_images]. unfold read_image.
    destruct (opened y) as [file |] eqn:E; [| contradiction].
    destruct (read_image_file_runs (stale_origin y) file s)
      as (s1 & Hrun1 & (Hr1 & Hrun1' & _ & _ & Hout1) & Hmem1).
    destruct (IH s1 Hrest Hx) as (s' & Hrun & Hmem & Hr & Hrn & Hout).
    exists s'. split.
    + unfold bind. rewrite Hrun1. unfold ret. exact Hrun.
    + split; [| repeat split; congruence].
      intros a. rewrite Hmem. cbn [overlay_all fold_left]. rewrite E.
      apply overlay_all_ext. exact Hmem1.
Qed.

(** X4. The two ways [main] ends before the run loop.  With fewer than two
    [argv] entries it prints the usage line and exits with status 2,
    touching nothing else.  Otherwise, at the first entry that does not
    open it prints the failure line naming that path and exits with status
    1: the entries before it have been loaded, the later ones are not
    looked at, and the PC and [running] are still unset.  Entry 0, the
    program's own path, is loaded like the rest. *)
Theorem main_exits_before_loop (argv : list arg) (s : vm) :
  ((List.length argv < 2)%nat ->
   main_before_loop argv s =
   Ok (Some 2)
      (set_stdout
         (stdout s ++ list_ascii_of_string "lc3-vm [image-file1] ..." ++
          [newline]) s)) /\
  (forall before x after,
     argv = before ++ x :: after ->
     (2 <= List.length argv)%nat ->
     Forall opens before -> opened x = None ->
     exists s',
       main_before_loop argv s = Ok (Some 1) s' /\
       (forall a, memory s' a = overlay_all before (memory s) a) /\
       reg s' = reg s /\ running s' = running s /\
       stdout s' =
       stdout s ++
       list_ascii_of_string (String.append "Failed to load image " (path x)) ++
       [newline]).
Proof.
  split.
  - intros Hshort. unfold main_before_loop.
    destruct (Z.ltb_spec (Z.of_nat (List.length argv)) 2) as [_ | Hge]; [| lia].
    unfold bind, printf, putc, ret. cbn [stdout set_stdout].
    rewrite <- app_assoc. destruct s; reflexivity.
  - intros before x after -> Hlong Hopen Hx.
    destruct (load_images_fail before after x s Hopen Hx)
      as (s' & Hrun & Hrest).
    exists s'. split; [| exact Hrest].
    unfold main_before_loop.
    destruct (Z.ltb_spec (Z.of_nat (List.length (before ++ x :: after))) 2)
      as [Hlt | _]; [lia |].
    unfold bind. rewrite Hrun. reflexivity.
Qed.

(** The program's own path does not open. *)
Lemma main_exits_before_loop_witness :
  exists s',
    main_before_loop
      [mkArg "lc3-vm" None 0; demo_arg "prog.obj" [0x0100]]
      (process_start [] []) = Ok (Some 1) s' /\
    memory s' 0x3000 = 0 /\ reg s' R_PC = 0.
Proof.
  destruct (main_exits_before_loop
              [mkArg "lc3-vm" None 0; demo_arg "prog.obj" [0x0100]]
              (process_start [] [])) as (_ & Hfail).
  destruct (Hfail [] (mkArg "lc3-vm" None 0) [demo_arg "prog.obj" [0x0100]])
    as (s' & Hrun & Hmem & Hreg & _).
  - reflexivity.
  - simpl. lia.
  - constructor.
  - reflexivity.
  - exists s'. split; [exact Hrun |]. split.
    + rewrite Hmem. reflexivity.
    + rewrite Hreg. reflexivity.
Defined.

(** X5. When every [argv] entry opens (there being at least two), [main]
    reaches the run loop without printing, in the state the run loop
    theorems start from: memory is the zeroed array with the files of all
    entries laid over it in order, entry 0 (the program's own file)
    included; the PC is 0x3000, [running] is 1 and every other register,
    the condition register among them, is 0. *)
Theorem main_reaches_loop (argv : list arg) (keys : list bool)
        (input : list ascii) :
  (2 <= List.length argv)%nat ->
  Forall opens argv ->
  exists s',
    main_before_loop argv (process_start keys input) = Ok None s' /\
    agree s' (boot (overlay_all argv (fun _ => 0)) keys input) /\
    reg s' R_PC = PC_START /\ reg s' R_COND = 0 /\ running s' = 1.
Proof.
  intros Hlong Hopen.
  destruct (load_images_open argv (process_start keys input) Hopen)
    as (s1 & Hrun & (Hr & Hrn & Hk & Hi & Ho) & Hmem).
  exists (set_running 1 (set_regs (upd (reg s1) R_PC PC_START) s1)).
  split.
  - unfold main_before_loop.
    destruct (Z.ltb_spec (Z.of_nat (List.length argv)) 2) as [Hlt | _]; [lia |].
    unfold bind at 1. rewrite Hrun. reflexivity.
  - cbn [running reg memory key_ready stdin stdout set_running set_regs].
    rewrite Hr. split; [| repeat split].
    unfold agree.
    cbn [running reg memory key_ready stdin stdout set_running set_regs boot].
    split; [reflexivity |]. split; [exact Hmem |].
    split; [intros r; reflexivity |].
    repeat split; assumption.
Qed.

Lemma main_reaches_loop_witness :
  exists s',
    main_before_loop
      [demo_arg "lc3-vm" [0x0100; 0x0200]; demo_arg "prog.obj" [0x0300]]
      (process_start [] []) = Ok None s' /\
    memory s' 0x3000 = 3 /\ memory s' 0x3001 = 2 /\ reg s' R_PC = 0x3000.
Proof.
  destruct (main_reaches_loop
              [demo_arg "lc3-vm" [0x0100; 0x0200]; demo_arg "prog.obj" [0x0300]]
              [] []) as (s' & Hrun & (_ & Hmem & _) & Hpc & _).
  - simpl. lia.
  - repeat constructor; discriminate.
  - exists s'. split; [exact Hrun |].
    rewrite !Hmem. repeat split. exact Hpc.
Defined.

(** ** Arithmetic and logic instructions *)

Lemma flags_of_word (r : Z) (s : vm) :
  in_array REG_LEN r = true -> is_word (reg s r) ->
  update_flags r s =
  Ok tt (set_regs (upd (reg s) R_COND (flag_of_word (reg s r))) s).
Proof.
  intros Hr Hw. rewrite (update_flags_runs r s Hr).
  unfold flag_of_word. rewrite (sign_test _ Hw). reflexivity.
Qed.

(** Finishes a handler that ends by updating the flags of a general
    register just written with a word. *)
Ltac finish_flags :=
  rewrite flags_of_word;
  [ cbn [reg set_regs]; rewrite upd_same; reflexivity
  | apply field3_in_reg
  | cbn [reg set_regs]; rewrite upd_same; try apply u16_is_word ].

Lemma field3_not_cond (x : Z) : x & 0x7 <> R_COND.
Proof. pose proof (field3_range x). unfold R_COND. lia. Qed.

Lemma after_write_then_flags (x v r : Z) (a : Z -> Z) :
  (upd (upd a (x & 0x7) v) R_COND (flag_of_word v)) (x & 0x7) = v /\
  (upd (upd a (x & 0x7) v) R_COND (flag_of_word v)) R_COND = flag_of_word v /\
  (r <> x & 0x7 -> r <> R_COND ->
   (upd (upd a (x & 0x7) v) R_COND (flag_of_word v)) r = a r).
Proof.
  split; [| split].
  - rewrite upd_other by apply field3_not_cond. apply upd_same.
  - apply upd_same.
  - intros H1 H2. rewrite !upd_other by assumption. reflexivity.
Qed.

Lemma field5_range (x : Z) : 0 <= x & 0x1F < 2 ^ 5.
Proof.
  change 0x1F with (Z.ones 5). rewrite Z.land_ones by lia.
  apply Z.mod_pos_bound. reflexivity.
Qed.

Lemma add_runs (instruction : Z) (s : vm) :
  add instruction s =
  let dr := (instruction >> 9) & 0x7 in
  let v := u16 (reg s ((instruction >> 6) & 0x7) +
                if truthy ((instruction >> 5) & 0x1)
                then sign_extend (instruction & 0x1F) 5
                else reg s (instruction & 0x7)) in
  Ok tt (set_regs (upd (upd (reg s) dr v) R_COND (flag_of_word v)) s).
Proof.
  unfold add. cbv zeta.
  destruct (truthy ((instruction >> 5) & 1)); repeat run_step; finish_flags.
Qed.

(** X6. ADD never fails.  The destination receives the first source plus
    the second operand modulo 65536, the second operand being a register
    or, in immediate mode, the 5-bit field read as a signed number from -16
    to 15; the condition register receives the flag of that result; no
    other register, no memory cell and nothing of the terminal changes. *)
Theorem add_adds_modulo_65536 (instruction : Z) (s : vm) :
  let dr := (instruction >> 9) & 0x7 in
  let sr1 := (instruction >> 6) & 0x7 in
  let imm5 := instruction & 0x1F in
  let operand :=
    if truthy ((instruction >> 5) & 0x1) then signed_field imm5 5
    else reg s (instruction & 0x7) in
  exists s',
    add instruction s = Ok tt s' /\
    reg s' dr = (reg s sr1 + operand) mod 65536 /\
    reg s' R_COND = flag_of_word (reg s' dr) /\
    -16 <= signed_field imm5 5 <= 15 /\
    (forall r, r <> dr -> r <> R_COND -> reg s' r = reg s r) /\
    memory s' = memory s /\ running s' = running s /\
    key_ready s' = key_ready s /\ stdin s' = stdin s /\ stdout s' = stdout s.
Proof.
  intros dr sr1 imm5 operand.
  eexists. split; [apply add_runs |]. cbv zeta.
  cbn [reg memory running key_ready stdin stdout set_regs].
  fold dr sr1 imm5.
  pose proof (field5_range instruction) as Himm. fold imm5 in Himm.
  destruct (after_write_then_flags (instruction >> 9)
              (u16 (reg s sr1 +
                    (if truthy ((instruction >> 5) & 1)
                     then sign_extend imm5 5
                     else reg s (instruction & 7))))
              0 (reg s)) as (Hdr & Hcond & _).
  fold dr in Hdr, Hcond. rewrite Hdr, Hcond.
  split.
  - unfold operand. destruct (truthy ((instruction >> 5) & 1)); [| reflexivity].
    rewrite (sign_extend_value imm5 5) by (lia || exact Himm).
    unfold u16, signed_field. apply Z.add_mod_idemp_r. lia.
  - split; [reflexivity |]. split.
    + unfold signed_field. change (2 ^ (5 - 1)) with 16.
      change (2 ^ 5) with 32 in *. destruct (Z.ltb_spec imm5 16); lia.
    + split; [| repeat split].
      intros r H1 H2.
      apply (after_write_then_flags (instruction >> 9)); assumption.
Qed.

(** ADD R0, R1, #-3 with R1 = 1 wraps to 0xFFFE. *)
Example add_wraps_below_zero :
  exists s',
    add 0x107D (set_regs (upd (fun _ => 0) R_R1 1) (demo_regs 0)) = Ok tt s' /\
    reg s' R_R0 = 0xFFFE /\ reg s' R_COND = FL_NEG.
Proof. eexists. split; [reflexivity | split; reflexivity]. Qed.

Lemma add_adds_modulo_65536_witness :
  exists s',
    add 0x107D (set_regs (upd (fun _ => 0) R_R1 1) (demo_regs 0)) = Ok tt s' /\
    reg s' R_R0 = 0xFFFE /\ reg s' R_R1 = 1.
Proof.
  destruct (add_adds_modulo_65536 0x107D
              (set_regs (upd (fun _ => 0) R_R1 1) (demo_regs 0)))
    as (s' & Hrun & Hsum & _ & _ & Hframe & _).
  exists s'. split; [exact Hrun |]. split.
  - vm_compute in Hsum. exact Hsum.
  - rewrite (Hframe R_R1); [reflexivity | discriminate | discriminate].
Defined.

Lemma and_runs (instruction : Z) (s : vm) :
  and instruction s =
  let dr := (instruction >> 9) & 0x7 in
  let v := u16 (reg s ((instruction >> 6) & 0x7) &
                if truthy ((instruction >> 5) & 0x1)
                then sign_extend (instruction & 0x1F) 5
                else reg s (instruction & 0x7)) in
  Ok tt (set_regs (upd (upd (reg s) dr v) R_COND (flag_of_word v)) s).
Proof.
  unfold and. cbv zeta.
  destruct (truthy ((instruction >> 5) & 1)); repeat run_step; finish_flags.
Qed.

Lemma not_runs (instruction : Z) (s : vm) :
  not instruction s =
  let dr := (instruction >> 9) & 0x7 in
  let v := u16 (Z.lnot (reg s ((instruction >> 6) & 0x7))) in
  Ok tt (set_regs (upd (upd (reg s) dr v) R_COND (flag_of_word v)) s).
Proof. unfold not. cbv zeta. repeat run_step. finish_flags. Qed.

Lemma land_word (a b : Z) : is_word a -> 0 <= a & b <= a.
Proof.
  unfold is_word. intros Ha. split.
  - apply Z.land_nonneg. lia.
  - destruct (Z.eq_dec a 0) as [-> | Hne]; [rewrite Z.land_0_l; lia |].
    assert (Z.land a b = a - Z.land a (Z.lnot b)) as ->.
    { rewrite <- Z.ldiff_land.
      pose proof (Z.add_lor_land (Z.land a b) (Z.ldiff a b)) as H.
      assert (Z.land (Z.land a b) (Z.ldiff a b) = 0) as H0.
      { apply Z.bits_inj'. intros i Hi.
        rewrite !Z.land_spec, Z.ldiff_spec, Z.bits_0.
        destruct (Z.testbit a i), (Z.testbit b i); reflexivity. }
      assert (Z.lor (Z.land a b) (Z.ldiff a b) = a) as H1.
      { apply Z.bits_inj'. intros i Hi.
        rewrite Z.lor_spec, Z.land_spec, Z.ldiff_spec.
        destruct (Z.testbit a i), (Z.testbit b i); reflexivity. }
      rewrite H0, H1 in H. lia. }
    assert (0 <= Z.land a (Z.lnot b)) by (apply Z.land_nonneg; lia). lia.
Qed.

(** X7. AND never fails.  With a word in the first source register the
    destination receives the bitwise AND of the two operands, which is at
    most the first operand, and the condition register the flag of the
    result; ANDing with the immediate 0 clears the destination and sets
    ZERO whatever the registers hold.  Nothing but the destination and the
    condition register changes. *)
Theorem and_masks_bits (instruction : Z) (s : vm) :
  let dr := (instruction >> 9) & 0x7 in
  let sr1 := (instruction >> 6) & 0x7 in
  let immediate_mode := truthy ((instruction >> 5) & 0x1) in
  let operand :=
    if immediate_mode then sign_extend (instruction & 0x1F) 5
    else reg s (instruction & 0x7) in
  is_word (reg s sr1) ->
  exists s',
    and instruction s = Ok tt s' /\
    reg s' dr = reg s sr1 & operand /\
    (forall i, 0 <= i ->
       Z.testbit (reg s' dr) i =
       Z.testbit (reg s sr1) i && Z.testbit operand i) /\
    reg s' dr <= reg s sr1 /\
    reg s' R_COND = flag_of_word (reg s' dr) /\
    (immediate_mode = true -> instruction & 0x1F = 0 ->
     reg s' dr = 0 /\ reg s' R_COND = FL_ZRO) /\
    (forall r, r <> dr -> r <> R_COND -> reg s' r = reg s r) /\
    memory s' = memory s /\ running s' = running s /\
    key_ready s' = key_ready s /\ stdin s' = stdin s /\ stdout s' = stdout s.
Proof.
  intros dr sr1 immediate_mode operand Hw.
  eexists. split; [apply and_runs |]. cbv zeta.
  cbn [reg memory running key_ready stdin stdout set_regs].
  fold dr sr1 immediate_mode. fold operand.
  destruct (after_write_then_flags (instruction >> 9)
              (u16 (reg s sr1 & operand)) 0 (reg s)) as (Hdr & Hcond & _).
  fold dr in Hdr, Hcond. rewrite Hdr, Hcond.
  pose proof (land_word (reg s sr1) operand Hw) as Hland.
  assert (u16 (reg s sr1 & operand) = reg s sr1 & operand) as Hu.
  { apply u16_word. unfold is_word in *. lia. }
  rewrite Hu.
  split; [reflexivity |].
  split; [intros i Hi; apply Z.land_spec |].
  split; [lia |]. split; [reflexivity |]. split.
  - intros Hmode Hzero. unfold operand. rewrite Hmode, Hzero.
    change (sign_extend 0 5) with 0. rewrite Z.land_0_r.
    split; reflexivity.
  - split; [| repeat split].
    intros r H1 H2.
    apply (after_write_then_flags (instruction >> 9)); assumption.
Qed.

(** AND R0, R1, R2 with R1 = 0xF0F0 and R2 = 0x0FF0. *)
Lemma and_masks_bits_witness :
  exists s',
    and 0x5042
      (set_regs (upd (upd (fun _ => 0) R_R1 0xF0F0) R_R2 0x0FF0) (demo_regs 0))
    = Ok tt s' /\
    reg s' R_R0 = 0x00F0.
Proof.
  destruct (and_masks_bits 0x5042
              (set_regs (upd (upd (fun _ => 0) R_R1 0xF0F0) R_R2 0x0FF0)
                 (demo_regs 0))) as (s' & Hrun & Hval & _).
  - vm_compute. split; [discriminate | reflexivity].
  - exists s'. split; [exact Hrun |]. vm_compute in Hval. exact Hval.
Defined.

Lemma lnot_word (a : Z) : is_word a -> u16 (Z.lnot a) = 65535 - a.
Proof.
  unfold is_word, u16, Z.lnot. intros Ha.
  replace (Z.pred (- a)) with (65535 - a + -1 * 65536) by lia.
  rewrite Z.mod_add by lia. apply Z.mod_small. lia.
Qed.

(** X8. NOT never fails.  With a word a in the source register the
    destination receives 0xFFFF - a, that is a with each of its 16 bits
    inverted, and the condition register the flag of that result; a second
    NOT reading the destination of the first gives a back. *)
Theorem not_complements_word (first second : Z) (s : vm) :
  let dr1 := (first >> 9) & 0x7 in
  let sr1 := (first >> 6) & 0x7 in
  let dr2 := (second >> 9) & 0x7 in
  let sr2 := (second >> 6) & 0x7 in
  is_word (reg s sr1) ->
  sr2 = dr1 ->
  exists s1 s2,
    not first s = Ok tt s1 /\
    reg s1 dr1 = 0xFFFF - reg s sr1 /\
    (forall i, 0 <= i < 16 ->
       Z.testbit (reg s1 dr1) i = negb (Z.testbit (reg s sr1) i)) /\
    reg s1 R_COND = flag_of_word (reg s1 dr1) /\
    (forall r, r <> dr1 -> r <> R_COND -> reg s1 r = reg s r) /\
    memory s1 = memory s /\
    not second s1 = Ok tt s2 /\
    reg s2 dr2 = reg s sr1.
Proof.
  intros dr1 sr1 dr2 sr2 Hw Hlink.
  set (v1 := u16 (Z.lnot (reg s sr1))).
  set (s1 := set_regs (upd (upd (reg s) dr1 v1) R_COND (flag_of_word v1)) s).
  set (v2 := u16 (Z.lnot (reg s1 sr2))).
  set (s2 := set_regs (upd (upd (reg s1) dr2 v2) R_COND (flag_of_word v2)) s1).
  assert (v1 = 0xFFFF - reg s sr1) as Hv1 by (apply lnot_word; exact Hw).
  destruct (after_write_then_flags (first >> 9) v1 0 (reg s))
    as (Hdr1 & Hcond1 & _).
  destruct (after_write_then_flags (second >> 9) v2 0 (reg s1))
    as (Hdr2 & _).
  exists s1, s2.
  split; [apply not_runs |].
  split; [unfold s1; cbn [reg set_regs]; rewrite <- Hv1; exact Hdr1 |].
  split.
  { intros i Hi. unfold s1. cbn [reg set_regs]. fold dr1 in Hdr1.
    rewrite Hdr1. unfold v1, u16. change 65536 with (2 ^ 16).
    rewrite Z.mod_pow2_bits_low by lia. apply Z.lnot_spec. lia. }
  split.
  { unfold s1. cbn [reg set_regs]. fold dr1 in Hdr1, Hcond1.
    rewrite Hdr1, Hcond1. reflexivity. }
  split.
  { intros r H1 H2. unfold s1. cbn [reg set_regs].
    apply (after_write_then_flags (first >> 9)); assumption. }
  split; [reflexivity |]. split; [apply not_runs |].
  unfold s2. cbn [reg set_regs]. fold dr2 in Hdr2. rewrite Hdr2.
  unfold v2. rewrite Hlink. unfold s1 at 1. cbn [reg set_regs].
  fold dr1 in Hdr1. rewrite Hdr1, Hv1, lnot_word; [lia |].
  unfold is_word in *. lia.
Qed.

(** NOT R0, R1 then NOT R2, R0, with R1 = 0x00FF. *)
Lemma not_complements_word_witness :
  exists s1 s2,
    not 0x907F (set_regs (upd (fun _ => 0) R_R1 0x00FF) (demo_regs 0)) =
    Ok tt s1 /\
    reg s1 R_R0 = 0xFF00 /\
    not 0x943F s1 = Ok tt s2 /\ reg s2 R_R2 = 0x00FF.
Proof.
  destruct (not_complements_word 0x907F 0x943F
              (set_regs (upd (fun _ => 0) R_R1 0x00FF) (demo_regs 0)))
    as (s1 & s2 & Hrun1 & Hval & _ & _ & _ & _ & Hrun2 & Hback).
  - vm_compute. split; [discriminate | reflexivity].
  - reflexivity.
  - exists s1, s2. vm_compute in Hval. vm_compute in Hback.
    split; [exact Hrun1 |]. split; [exact Hval |].
    split; [exact Hrun2 | exact Hback].
Defined.

(** ** Loads and stores *)

Lemma u16_in_memory (x : Z) : u16 x <> 0xFFFF -> 0 <= u16 x < MEMORY_LEN.
Proof.
  pose proof (u16_is_word x) as H. unfold is_word in H.
  unfold MEMORY_LEN, UINT16_MAX. lia.
Qed.

Lemma st_runs (instruction : Z) (s : vm) :
  let a := u16 (reg s R_PC + sign_extend (instruction & 0x1FF) 9) in
  a <> 0xFFFF ->
  st instruction s =
  Ok tt (set_memory (upd (memory s) a (reg s ((instruction >> 9) & 0x7))) s).
Proof.
  intros a Ha. unfold st. cbv zeta. repeat run_step.
  apply mem_write_inside. apply u16_in_memory. exact Ha.
Qed.

Lemma ld_runs (instruction : Z) (s : vm) :
  let a := u16 (reg s R_PC + sign_extend (instruction & 0x1FF) 9) in
  a <> 0xFFFF -> a <> MR_KBSR -> is_word (memory s a) ->
  ld instruction s =
  Ok tt (set_regs (upd (upd (reg s) ((instruction >> 9) & 0x7) (memory s a))
                     R_COND (flag_of_word (memory s a))) s).
Proof.
  intros a Ha Hk Hw. unfold ld. cbv zeta. repeat run_step. fold a.
  rewrite (mem_read_plain a s Hk (u16_in_memory _ Ha)).
  repeat run_step. finish_flags. exact Hw.
Qed.

Lemma str_runs (instruction : Z) (s : vm) :
  let a := u16 (reg s ((instruction >> 6) & 0x7) +
                sign_extend (instruction & 0x3F) 6) in
  a <> 0xFFFF ->
  str instruction s =
  Ok tt (set_memory (upd (memory s) a (reg s ((instruction >> 9) & 0x7))) s).
Proof.
  intros a Ha. unfold str. cbv zeta. repeat run_step.
  apply mem_write_inside. apply u16_in_memory. exact Ha.
Qed.

Lemma ldr_runs (instruction : Z) (s : vm) :
  let a := u16 (reg s ((instruction >> 6) & 0x7) +
                sign_extend (instruction & 0x3F) 6) in
  a <> 0xFFFF -> a <> MR_KBSR -> is_word (memory s a) ->
  ldr instruction s =
  Ok tt (set_regs (upd (upd (reg s) ((instruction >> 9) & 0x7) (memory s a))
                     R_COND (flag_of_word (memory s a))) s).
Proof.
  intros a Ha Hk Hw. unfold ldr. cbv zeta. repeat run_step. fold a.
  rewrite (mem_read_plain a s Hk (u16_in_memory _ Ha)).
  repeat run_step. finish_flags. exact Hw.
Qed.

(** X9. ST then LD with the same offset field, run at the same PC, give
    the stored register back: the word goes to the cell at PC plus the
    9-bit offset read as a signed number (modulo 65536) and LD fetches it
    from there into its destination, setting the flag of that word.  This needs the cell to be
    inside [memory] (not 0xFFFF) and not the keyboard status register. *)
Theorem st_then_ld_round_trip (store_i load_i : Z) (s : vm) :
  let a := u16 (reg s R_PC + sign_extend (store_i & 0x1FF) 9) in
  let sr := (store_i >> 9) & 0x7 in
  let dr := (load_i >> 9) & 0x7 in
  load_i & 0x1FF = store_i & 0x1FF ->
  a <> 0xFFFF -> a <> MR_KBSR ->
  is_word (reg s sr) ->
  exists s1 s2,
    st store_i s = Ok tt s1 /\
    memory s1 a = reg s sr /\
    (forall b, b <> a -> memory s1 b = memory s b) /\
    reg s1 = reg s /\
    ld load_i s1 = Ok tt s2 /\
    reg s2 dr = reg s sr /\
    reg s2 R_COND = flag_of_word (reg s sr) /\
    memory s2 = memory s1 /\
    a = (reg s R_PC + signed_field (store_i & 0x1FF) 9) mod 65536.
Proof.
  intros a sr dr Hoff Ha Hk Hw.
  set (s1 := set_memory (upd (memory s) a (reg s sr)) s).
  assert (memory s1 a = reg s sr) as Hcell by apply upd_same.
  assert (u16 (reg s1 R_PC + sign_extend (load_i & 0x1FF) 9) = a) as Ha1.
  { rewrite Hoff. reflexivity. }
  pose proof (ld_runs load_i s1) as Hld. cbv zeta in Hld.
  rewrite Ha1, Hcell in Hld.
  exists s1. eexists.
  split; [apply st_runs; exact Ha |].
  split; [exact Hcell |].
  split; [intros b Hb; apply upd_other; exact Hb |].
  split; [reflexivity |].
  split; [apply Hld; assumption |].
  cbn [reg memory set_regs].
  destruct (after_write_then_flags (load_i >> 9) (reg s sr) 0 (reg s1))
    as (Hdr & Hcond & _).
  split; [exact Hdr |]. split; [exact Hcond |]. split; [reflexivity |].
  apply add_sign_extend; [lia | apply (low_field_range store_i 9); lia].
Qed.

(** ST R3, #2 then LD R4, #2 at PC 0x3001 with R3 = 0xBEEF. *)
Lemma st_then_ld_round_trip_witness :
  exists s1 s2,
    st 0x3602 (set_regs (upd (upd (fun _ => 0) R_PC 0x3001) R_R3 0xBEEF)
                 (demo_regs 0)) = Ok tt s1 /\
    memory s1 0x3003 = 0xBEEF /\
    ld 0x2802 s1 = Ok tt s2 /\
    reg s2 R_R4 = 0xBEEF /\ reg s2 R_COND = FL_NEG.
Proof.
  destruct (st_then_ld_round_trip 0x3602 0x2802
              (set_regs (upd (upd (fun _ => 0) R_PC 0x3001) R_R3 0xBEEF)
                 (demo_regs 0)))
    as (s1 & s2 & Hst & Hcell & _ & _ & Hld & Hdr & Hcond & _).
  - reflexivity.
  - vm_compute. discriminate.
  - vm_compute. discriminate.
  - vm_compute. split; [discriminate | reflexivity].
  - exists s1, s2. vm_compute in Hcell. vm_compute in Hdr. vm_compute in Hcond.
    repeat split; assumption.
Defined.

(** X10. STR then LDR with the same base register and offset field give
    the stored register back through the cell at base plus signed offset
    (modulo 65536), under the same two conditions on the cell. *)
Theorem str_then_ldr_round_trip (store_i load_i : Z) (s : vm) :
  let a := u16 (reg s ((store_i >> 6) & 0x7) +
                sign_extend (store_i & 0x3F) 6) in
  let sr := (store_i >> 9) & 0x7 in
  let dr := (load_i >> 9) & 0x7 in
  (load_i >> 6) & 0x7 = (store_i >> 6) & 0x7 ->
  load_i & 0x3F = store_i & 0x3F ->
  a <> 0xFFFF -> a <> MR_KBSR ->
  is_word (reg s sr) ->
  exists s1 s2,
    str store_i s = Ok tt s1 /\
    memory s1 a = reg s sr /\
    (forall b, b <> a -> memory s1 b = memory s b) /\
    reg s1 = reg s /\
    ldr load_i s1 = Ok tt s2 /\
    reg s2 dr = reg s sr /\
    reg s2 R_COND = flag_of_word (reg s sr) /\
    memory s2 = memory s1 /\
    a = (reg s ((store_i >> 6) & 0x7) + signed_field (store_i & 0x3F) 6)
        mod 65536.
Proof.
  intros a sr dr Hbase Hoff Ha Hk Hw.
  set (s1 := set_memory (upd (memory s) a (reg s sr)) s).
  assert (memory s1 a = reg s sr) as Hcell by apply upd_same.
  assert (u16 (reg s1 ((load_i >> 6) & 0x7) +
               sign_extend (load_i & 0x3F) 6) = a) as Ha1.
  { rewrite Hbase, Hoff. reflexivity. }
  pose proof (ldr_runs load_i s1) as Hld. cbv zeta in Hld.
  rewrite Ha1, Hcell in Hld.
  exists s1. eexists.
  split; [apply str_runs; exact Ha |].
  split; [exact Hcell |].
  split; [intros b Hb; apply upd_other; exact Hb |].
  split; [reflexivity |].
  split; [apply Hld; assumption |].
  cbn [reg memory set_regs].
  destruct (after_write_then_flags (load_i >> 9) (reg s sr) 0 (reg s1))
    as (Hdr & Hcond & _).
  split; [exact Hdr |]. split; [exact Hcond |]. split; [reflexivity |].
  apply add_sign_extend; [lia | apply (low_field_range store_i 6); lia].
Qed.

(** STR R3, R2, #-1 then LDR R4, R2, #-1 with R2 = 0x4001 and R3 = 7. *)
Lemma str_then_ldr_round_trip_witness :
  exists s1 s2,
    str 0x76BF (set_regs (upd (upd (fun _ => 0) R_R2 0x4001) R_R3 7)
                  (demo_regs 0)) = Ok tt s1 /\
    memory s1 0x4000 = 7 /\
    ldr 0x68BF s1 = Ok tt s2 /\
    reg s2 R_R4 = 7 /\ reg s2 R_COND = FL_POS.
Proof.
  destruct (str_then_ldr_round_trip 0x76BF 0x68BF
              (set_regs (upd (upd (fun _ => 0) R_R2 0x4001) R_R3 7)
                 (demo_regs 0)))
    as (s1 & s2 & Hst & Hcell & _ & _ & Hld & Hdr & Hcond & _).
  - reflexivity.
  - reflexivity.
  - vm_compute. discriminate.
  - vm_compute. discriminate.
  - vm_compute. split; [discriminate | reflexivity].
  - exists s1, s2. vm_compute in Hcell. vm_compute in Hdr. vm_compute in Hcond.
    repeat split; assumption.
Defined.

Lemma sti_runs (instruction : Z) (s : vm) :
  let a := u16 (reg s R_PC + sign_extend (instruction & 0x1FF) 9) in
  a <> 0xFFFF -> a <> MR_KBSR -> 0 <= memory s a < MEMORY_LEN ->
  sti instruction s =
  Ok tt (set_memory (upd (memory s) (memory s a)
                       (reg s ((instruction >> 9) & 0x7))) s).
Proof.
  intros a Ha Hk Hp. unfold sti. cbv zeta. repeat run_step. fold a.
  rewrite (mem_read_plain a s Hk (u16_in_memory _ Ha)).
  repeat run_step. apply mem_write_inside. exact Hp.
Qed.

Lemma ldi_runs (instruction : Z) (s : vm) :
  let a := u16 (reg s R_PC + sign_extend (instruction & 0x1FF) 9) in
  let p := memory s a in
  a <> 0xFFFF -> a <> MR_KBSR -> 0 <= p < MEMORY_LEN -> p <> MR_KBSR ->
  is_word (memory s p) ->
  ldi instruction s =
  Ok tt (set_regs (upd (upd (reg s) ((instruction >> 9) & 0x7) (memory s p))
                     R_COND (flag_of_word (memory s p))) s).
Proof.
  intros a p Ha Hk Hp Hpk Hw. unfold ldi. cbv zeta. repeat run_step. fold a.
  rewrite (mem_read_plain a s Hk (u16_in_memory _ Ha)).
  cbv beta iota. fold p. unfold bind at 1.
  rewrite (mem_read_plain p s Hpk Hp). cbv beta iota.
  repeat run_step. finish_flags. exact Hw.
Qed.

(** X11. STI then LDI with the same offset field, run at the same PC, give
    the stored register back through the pointer held at PC plus signed
    offset: STI writes the cell the pointer names, LDI reads that cell.
    Besides both cells being inside [memory] and not the keyboard status
    register, this needs the pointer not to name its own cell, since STI
    would then overwrite the pointer. *)
Theorem sti_then_ldi_round_trip (store_i load_i : Z) (s : vm) :
  let a := u16 (reg s R_PC + sign_extend (store_i & 0x1FF) 9) in
  let p := memory s a in
  let sr := (store_i >> 9) & 0x7 in
  let dr := (load_i >> 9) & 0x7 in
  load_i & 0x1FF = store_i & 0x1FF ->
  a <> 0xFFFF -> a <> MR_KBSR ->
  0 <= p < MEMORY_LEN -> p <> MR_KBSR -> p <> a ->
  is_word (reg s sr) ->
  exists s1 s2,
    sti store_i s = Ok tt s1 /\
    memory s1 p = reg s sr /\
    (forall b, b <> p -> memory s1 b = memory s b) /\
    reg s1 = reg s /\
    ldi load_i s1 = Ok tt s2 /\
    reg s2 dr = reg s sr /\
    reg s2 R_COND = flag_of_word (reg s sr) /\
    memory s2 = memory s1 /\
    a = (reg s R_PC + signed_field (store_i & 0x1FF) 9) mod 65536.
Proof.
  intros a p sr dr Hoff Ha Hk Hp Hpk Hne Hw.
  set (s1 := set_memory (upd (memory s) p (reg s sr)) s).
  assert (memory s1 p = reg s sr) as Hcell by apply upd_same.
  assert (memory s1 a = p) as Hptr.
  { unfold s1. cbn [memory set_memory]. apply upd_other. congruence. }
  assert (u16 (reg s1 R_PC + sign_extend (load_i & 0x1FF) 9) = a) as Ha1.
  { rewrite Hoff. reflexivity. }
  pose proof (ldi_runs load_i s1) as Hld. cbv zeta in Hld.
  rewrite Ha1, Hptr, Hcell in Hld.
  exists s1. eexists.
  split; [apply sti_runs; assumption |].
  split; [exact Hcell |].
  split; [intros b Hb; apply upd_other; exact Hb |].
  split; [reflexivity |].
  split; [apply Hld; assumption |].
  cbn [reg memory set_regs].
  destruct (after_write_then_flags (load_i >> 9) (reg s sr) 0 (reg s1))
    as (Hdr & Hcond & _).
  split; [exact Hdr |]. split; [exact Hcond |]. split; [reflexivity |].
  apply add_sign_extend; [lia | apply (low_field_range store_i 9); lia].
Qed.

(** STI R3, #2 then LDI R4, #2 at PC 0x3001, the pointer at 0x3003 naming
    0x4000, with R3 = 42. *)
Lemma sti_then_ldi_round_trip_witness :
  exists s1 s2,
    sti 0xB602
      (set_memory (upd (fun _ => 0) 0x3003 0x4000)
         (set_regs (upd (upd (fun _ => 0) R_PC 0x3001) R_R3 42) (demo_regs 0)))
    = Ok tt s1 /\
    memory s1 0x4000 = 42 /\
    ldi 0xA802 s1 = Ok tt s2 /\
    reg s2 R_R4 = 42.
Proof.
  destruct (sti_then_ldi_round_trip 0xB602 0xA802
              (set_memory (upd (fun _ => 0) 0x3003 0x4000)
                 (set_regs (upd (upd (fun _ => 0) R_PC 0x3001) R_R3 42)
                    (demo_regs 0))))
    as (s1 & s2 & Hst & Hcell & _ & _ & Hld & Hdr & _).
  - reflexivity.
  - vm_compute. discriminate.
  - vm_compute. discriminate.
  - vm_compute. split; [discriminate | reflexivity].
  - vm_compute. discriminate.
  - vm_compute. discriminate.
  - vm_compute. split; [discriminate | reflexivity].
  - exists s1, s2. vm_compute in Hcell. vm_compute in Hdr.
    repeat split; assumption.
Defined.

(** ** Calls, jumps and the register-only instructions *)

Lemma jmp_runs (instruction : Z) (s : vm) :
  jmp instruction s =
  Ok tt (set_regs (upd (reg s) R_PC (reg s ((instruction >> 6) & 0x7))) s).
Proof. unfold jmp. cbv zeta. repeat run_step. reflexivity. Qed.

Lemma lea_runs (instruction : Z) (s : vm) :
  lea instruction s =
  let v := u16 (reg s R_PC + sign_extend (instruction & 0x1FF) 9) in
  Ok tt (set_regs (upd (upd (reg s) ((instruction >> 9) & 0x7) v)
                     R_COND (flag_of_word v)) s).
Proof. unfold lea. cbv zeta. repeat run_step. finish_flags. Qed.

(** X12. Call and return.  JSR in its long form saves the PC (already past
    the JSR) in R7 and moves the PC by the signed 11-bit offset modulo
    65536, changing no other register and no memory; a later JMP through
    R7 (RET), R7 still holding that value, puts the PC back at the
    instruction after the JSR. *)
Theorem jsr_then_ret_returns (call ret_i : Z) (s : vm) :
  (call >> 11) & 0x1 = 1 ->
  (ret_i >> 6) & 0x7 = R_R7 ->
  exists s1,
    jsr call s = Ok tt s1 /\
    reg s1 R_R7 = reg s R_PC /\
    reg s1 R_PC = (reg s R_PC + signed_field (call & 0x7FF) 11) mod 65536 /\
    (forall r, r <> R_R7 -> r <> R_PC -> reg s1 r = reg s r) /\
    memory s1 = memory s /\
    forall t,
      reg t R_R7 = reg s1 R_R7 ->
      exists t', jmp ret_i t = Ok tt t' /\ reg t' R_PC = reg s R_PC.
Proof.
  intros Hlong Hbase.
  eexists. split; [apply jsr_runs |]. cbv zeta.
  rewrite Hlong. change (truthy 1) with true. cbv iota.
  cbn [reg memory set_regs].
  assert (0 <= call & 0x7FF < 2 ^ 11) as Hfield.
  { change 0x7FF with (Z.ones 11). rewrite Z.land_ones by lia.
    apply Z.mod_pos_bound. reflexivity. }
  split; [rewrite upd_other by discriminate; apply upd_same |].
  split.
  { rewrite upd_same, (upd_other _ R_R7 _ R_PC) by discriminate.
    rewrite (sign_extend_value (call & 0x7FF) 11) by (lia || exact Hfield).
    unfold u16, signed_field. apply Z.add_mod_idemp_r. lia. }
  split; [intros r H1 H2; rewrite !upd_other by assumption; reflexivity |].
  split; [reflexivity |].
  intros t Ht. eexists. split; [apply jmp_runs |].
  cbn [reg set_regs]. rewrite upd_same, Hbase, Ht.
  rewrite upd_other by discriminate. apply upd_same.
Qed.

(** JSR #0x10 at PC 0x3001, then RET. *)
Lemma jsr_then_ret_returns_witness :
  exists s1 s2,
    jsr 0x4810 (demo_cpu 0x3001 FL_ZRO 0) = Ok tt s1 /\
    reg s1 R_PC = 0x3011 /\
    jmp 0xC1C0 s1 = Ok tt s2 /\ reg s2 R_PC = 0x3001.
Proof.
  destruct (jsr_then_ret_returns 0x4810 0xC1C0 (demo_cpu 0x3001 FL_ZRO 0))
    as (s1 & Hcall & _ & Hpc & _ & _ & Hret); [reflexivity | reflexivity |].
  destruct (Hret s1 eq_refl) as (s2 & Hjmp & Hback).
  exists s1, s2. vm_compute in Hpc. vm_compute in Hback.
  repeat split; assumption.
Defined.

(** X13. The instructions that work on registers only (ADD, AND, NOT, BR,
    JMP, JSR, LEA) never fail, whatever the instruction word and the
    state: every register index they use is a 3-bit field or a fixed one,
    so inside [reg]; and they leave memory, [running] and the terminal
    untouched. *)
Theorem register_instructions_never_fail (instruction : Z) (s : vm) :
  Forall
    (fun handler : Z -> M unit =>
       exists s',
         handler instruction s = Ok tt s' /\
         memory s' = memory s /\ running s' = running s /\
         key_ready s' = key_ready s /\ stdin s' = stdin s /\
         stdout s' = stdout s)
    [add; and; not; br; jmp; jsr; lea].
Proof.
  repeat constructor.
  - eexists. split; [apply add_runs | repeat split].
  - eexists. split; [apply and_runs | repeat split].
  - eexists. split; [apply not_runs | repeat split].
  - eexists. split; [apply br_runs |].
    destruct (truthy _); repeat split.
  - eexists. split; [apply jmp_runs | repeat split].
  - eexists. split; [apply jsr_runs | repeat split].
  - eexists. split; [apply lea_runs | repeat split].
Qed.

(** ** HALT and the string traps *)

Lemma trap_halt_runs (s : vm) :
  trap_halt s =
  Ok tt (set_running 0
           (set_stdout
              (stdout s ++ list_ascii_of_string "Halting execution" ++
               [newline]) s)).
Proof.
  unfold trap_halt, bind, printf, putc. cbn [stdout set_stdout].
  rewrite <- app_assoc. reflexivity.
Qed.

Lemma run_stopped (n : nat) (s : vm) : running s = 0 -> run n s = Ok tt s.
Proof. intros H. destruct n; [reflexivity |]. cbn [run]. rewrite H. reflexivity. Qed.

(** X14. HALT, fetched as a TRAP with vector 0x25, prints the halt notice,
    clears [running] and changes nothing else; the step completes and the
    run loop then ends in exactly that state: no further instruction is
    fetched, however long the loop is allowed to go on. *)
Theorem halt_stops_the_loop (s0 s : vm) (instruction : Z) :
  fetch s0 = Ok instruction s ->
  instruction >> 12 = OP_TRAP ->
  instruction & 0xFF = TRAP_HALT ->
  exists s',
    step s0 = Ok tt s' /\
    running s' = 0 /\
    stdout s' =
    stdout s ++ list_ascii_of_string "Halting execution" ++ [newline] /\
    reg s' = reg s /\ memory s' = memory s /\
    (running s0 <> 0 -> forall n, run (S n) s0 = Ok tt s').
Proof.
  intros Hfetch Hop Hvec.
  assert (step s0 = trap_halt s) as Hstep.
  { rewrite (step_after_fetch _ _ _ Hfetch). unfold dispatch. rewrite Hop.
    change (trap instruction s = trap_halt s). unfold trap. rewrite Hvec.
    reflexivity. }
  rewrite trap_halt_runs in Hstep.
  eexists. split; [exact Hstep |].
  cbn [running stdout reg memory set_running set_stdout].
  repeat split.
  intros Hon n. rewrite (run_after_step n s0 _ (proj2 (truthy_iff _) Hon) Hstep).
  apply run_stopped. reflexivity.
Qed.

(** HALT as the first instruction of a program. *)
Lemma halt_stops_the_loop_witness :
  exists s',
    run 100 (boot (one_word_image 0xF025) [] []) = Ok tt s' /\
    running s' = 0 /\ reg s' R_PC = 0x3001.
Proof.
  destruct (halt_stops_the_loop (boot (one_word_image 0xF025) [] [])
              (set_regs (upd (reg (boot (one_word_image 0xF025) [] [])) R_PC 0x3001)
                 (boot (one_word_image 0xF025) [] []))
              0xF025)
    as (s' & _ & Hoff & _ & Hreg & _ & Hrun);
    [reflexivity | reflexivity | reflexivity |].
  exists s'. split; [apply Hrun; discriminate |].
  split; [exact Hoff | rewrite Hreg; reflexivity].
Defined.

Lemma puts_loop_prints (k fuel : nat) (c : Z) (s : vm) :
  (k < fuel)%nat -> 0 <= c -> c + Z.of_nat k < MEMORY_LEN ->
  Forall (fun w => w <> 0) (cells (memory s) c k) ->
  memory s (c + Z.of_nat k) = 0 ->
  puts_loop fuel c s =
  Ok tt (set_stdout (stdout s ++ map to_char (cells (memory s) c k)) s).
Proof.
  revert fuel c s. induction k as [| k IH]; intros fuel c s Hfuel Hc Hfit Hnz Hend.
  - destruct fuel as [| fuel]; [lia |]. cbn [puts_loop cells map].
    unfold bind. rewrite load_in by lia.
    rewrite Z.add_0_r in Hend. rewrite Hend. change (truthy 0) with false.
    cbv iota. unfold ret. rewrite app_nil_r. destruct s; reflexivity.
  - destruct fuel as [| fuel]; [lia |]. cbn [puts_loop cells map].
    inversion Hnz as [| ? ? Hw Hrest]; subst.
    unfold bind at 1. rewrite load_in by lia.
    apply truthy_iff in Hw. rewrite Hw.
    unfold bind at 1. unfold putc at 1.
    rewrite (IH fuel (c + 1)
               (set_stdout (stdout s ++ [to_char (memory s c)]) s)).
    + cbn [stdout memory set_stdout]. rewrite <- app_assoc. reflexivity.
    + lia.
    + lia.
    + lia.
    + exact Hrest.
    + cbn [memory set_stdout]. rewrite <- Hend. f_equal. lia.
Qed.

Lemma puts_loop_unterminated (fuel : nat) (c : Z) (s : vm) :
  (forall a, c <= a < MEMORY_LEN -> memory s a <> 0) ->
  puts_loop fuel c s = OutOfBounds.
Proof.
  revert c s. induction fuel as [| fuel IH]; intros c s Hnz; [reflexivity |].
  cbn [puts_loop]. unfold bind at 1. unfold load.
  destruct (in_array MEMORY_LEN c) eqn:E; [| reflexivity].
  apply in_array_iff in E.
  assert (memory s c <> 0) as Hw by (apply Hnz; lia).
  apply truthy_iff in Hw. rewrite Hw.
  unfold bind, putc. apply IH. intros a Ha. apply Hnz. lia.
Qed.

(** X15. PUTS writes the string register 0 points to and nothing more:
    when the [k] cells from that address on are nonzero and the next cell,
    still inside [memory], is zero, it returns having appended to the
    output the low byte of each of the [k] words in order, with registers,
    memory and [running] unchanged. *)
Theorem trap_puts_prints_string (k : nat) (s : vm) :
  let r0 := reg s R_R0 in
  0 <= r0 -> r0 + Z.of_nat k < MEMORY_LEN ->
  Forall (fun w => w <> 0) (cells (memory s) r0 k) ->
  memory s (r0 + Z.of_nat k) = 0 ->
  trap_puts s =
  Ok tt (set_stdout (stdout s ++ map to_char (cells (memory s) r0 k)) s) /\
  (forall w, to_char w = to_char (w mod 256)).
Proof.
  intros r0 H0 Hfit Hnz Hend. split.
  - unfold trap_puts. repeat run_step. fold r0.
    apply puts_loop_prints; try assumption.
    unfold MEMORY_LEN, UINT16_MAX in *. lia.
  - intros w. unfold to_char. rewrite Z.mod_mod by lia. reflexivity.
Qed.

Lemma trap_puts_prints_string_witness :
  trap_puts
    (set_memory (image_of [(0x3003, 72); (0x3004, 105)]) (demo_regs 0x3003)) =
  Ok tt (set_stdout ["H"; "i"]%char
           (set_memory (image_of [(0x3003, 72); (0x3004, 105)])
              (demo_regs 0x3003))).
Proof.
  apply (trap_puts_prints_string 2
           (set_memory (image_of [(0x3003, 72); (0x3004, 105)])
              (demo_regs 0x3003))).
  - vm_compute. discriminate.
  - reflexivity.
  - repeat constructor; discriminate.
  - reflexivity.
Defined.

(** X16. PUTS on a string without terminator: when no cell from the
    address in register 0 to the end of [memory] is zero, the walk reads
    past the last cell of the array instead of stopping. *)
Theorem trap_puts_without_terminator (s : vm) :
  (forall a, reg s R_R0 <= a < MEMORY_LEN -> memory s a <> 0) ->
  trap_puts s = OutOfBounds.
Proof.
  intros Hnz. unfold trap_puts. repeat run_step.
  apply puts_loop_unterminated. exact Hnz.
Qed.

(** The last cell holds a character and register 0 points to it. *)
Lemma trap_puts_without_terminator_witness :
  trap_puts (set_memory (upd (fun _ => 0) 0xFFFE 65) (demo_regs 0xFFFE)) =
  OutOfBounds.
Proof.
  apply trap_puts_without_terminator.
  intros a Ha. assert (a = 0xFFFE) as ->.
  { change (reg _ R_R0) with 0xFFFE in Ha.
    unfold MEMORY_LEN, UINT16_MAX in Ha. lia. }
  vm_compute. discriminate.
Defined.

Lemma to_char_to_byte (x : Z) : to_char (to_byte x) = to_char x.
Proof. unfold to_char, to_byte. rewrite Z.mod_mod by lia. reflexivity. Qed.

Lemma word_bytes (w : Z) :
  is_word w -> w & 0xFF = w mod 256 /\ to_byte (w >> 8) = w / 256.
Proof.
  unfold is_word. intros Hw. split.
  - change 0xFF with (Z.ones 8). apply Z.land_ones. lia.
  - unfold to_byte. rewrite Z.shiftr_div_pow2 by lia. change (2 ^ 8) with 256.
    apply Z.mod_small.
    split; [apply Z.div_pos; lia | apply Z.div_lt_upper_bound; lia].
Qed.

Lemma putsp_loop_prints (k fuel : nat) (c : Z) (s : vm) :
  (k < fuel)%nat -> 0 <= c -> c + Z.of_nat k < MEMORY_LEN ->
  Forall (fun w => w <> 0 /\ is_word w) (cells (memory s) c k) ->
  memory s (c + Z.of_nat k) = 0 ->
  putsp_loop fuel c s =
  Ok tt (set_stdout
           (stdout s ++ flat_map packed_chars (cells (memory s) c k)) s).
Proof.
  revert fuel c s. induction k as [| k IH]; intros fuel c s Hfuel Hc Hfit Hnz Hend.
  - destruct fuel as [| fuel]; [lia |]. cbn [putsp_loop cells flat_map].
    unfold bind. rewrite load_in by lia.
    rewrite Z.add_0_r in Hend. rewrite Hend. change (truthy 0) with false.
    cbv iota. unfold ret. rewrite app_nil_r. destruct s; reflexivity.
  - destruct fuel as [| fuel]; [lia |]. cbn [putsp_loop cells flat_map].
    inversion Hnz as [| ? ? (Hw & Hword) Hrest]; subst.
    unfold bind at 1. rewrite load_in by lia.
    apply truthy_iff in Hw. rewrite Hw. cbv zeta.
    destruct (word_bytes _ Hword) as (Hlow & Hhigh). rewrite Hlow, Hhigh.
    unfold bind at 1. unfold putc at 1. unfold bind at 1.
    unfold packed_chars, truthy.
    destruct (memory s c / 256 =? 0); cbn [negb].
    + unfold ret.
      rewrite (IH fuel (c + 1)
                 (set_stdout (stdout s ++ [to_char (to_byte (memory s c mod 256))]) s));
        try lia.
      * cbn [stdout memory set_stdout]. rewrite to_char_to_byte.
        rewrite <- !app_assoc. reflexivity.
      * exact Hrest.
      * cbn [memory set_stdout]. rewrite <- Hend. f_equal. lia.
    + unfold putc.
      rewrite (IH fuel (c + 1)
                 (set_stdout
                    (stdout (set_stdout
                               (stdout s ++ [to_char (to_byte (memory s c mod 256))]) s)
                     ++ [to_char (memory s c / 256)])
                    (set_stdout
                       (stdout s ++ [to_char (to_byte (memory s c mod 256))]) s)));
        try lia.
      * cbn [stdout memory set_stdout]. rewrite to_char_to_byte.
        rewrite <- !app_assoc. reflexivity.
      * exact Hrest.
      * cbn [memory set_stdout]. rewrite <- Hend. f_equal. lia.
Qed.

(** X17. PUTSP writes the packed string register 0 points to: for each of
    the [k] nonzero words before the first zero word it appends the low
    byte and then the high byte, leaving the high byte out when it is zero
    (a zero low byte under a nonzero high byte is written); registers,
    memory and [running] are unchanged. *)
Theorem trap_putsp_prints_packed (k : nat) (s : vm) :
  let r0 := reg s R_R0 in
  0 <= r0 -> r0 + Z.of_nat k < MEMORY_LEN ->
  Forall (fun w => w <> 0 /\ is_word w) (cells (memory s) r0 k) ->
  memory s (r0 + Z.of_nat k) = 0 ->
  trap_putsp s =
  Ok tt (set_stdout
           (stdout s ++ flat_map packed_chars (cells (memory s) r0 k)) s).
Proof.
  intros r0 H0 Hfit Hnz Hend.
  unfold trap_putsp. repeat run_step. fold r0.
  apply putsp_loop_prints; try assumption.
  unfold MEMORY_LEN, UINT16_MAX in *. lia.
Qed.

(** "Hi!" packed as 0x6948, 0x0021. *)
Lemma trap_putsp_prints_packed_witness :
  trap_putsp
    (set_memory (image_of [(0x3003, 0x6948); (0x3004, 0x0021)])
       (demo_regs 0x3003)) =
  Ok tt (set_stdout ["H"; "i"; "!"]%char
           (set_memory (image_of [(0x3003, 0x6948); (0x3004, 0x0021)])
              (demo_regs 0x3003))).
Proof.
  apply (trap_putsp_prints_packed 2
           (set_memory (image_of [(0x3003, 0x6948); (0x3004, 0x0021)])
              (demo_regs 0x3003))).
  - vm_compute. discriminate.
  - reflexivity.
  - repeat constructor; try discriminate.
  - reflexivity.
Defined.

(** ** Reserved opcodes *)

Lemma never_aborts_ret {A} (a : A) : never_aborts (ret a).
Proof. intros s s'. discriminate. Qed.

Lemma never_aborts_bind {A B} (m : M A) (f : A -> M B) :
  never_aborts m -> (forall a, never_aborts (f a)) -> never_aborts (bind m f).
Proof.
  intros Hm Hf s s'. unfold bind.
  destruct (m s) as [a t | t |] eqn:E.
  - apply Hf.
  - exfalso. apply (Hm s t E).
  - discriminate.
Qed.

Lemma never_aborts_if {A} (b : bool) (m1 m2 : M A) :
  never_aborts m1 -> never_aborts m2 -> never_aborts (if b then m1 else m2).
Proof. destruct b; auto. Qed.

Lemma never_aborts_get_reg (i : Z) : never_aborts (get_reg i).
Proof. intros s s'. unfold get_reg. destruct (in_array _ _); discriminate. Qed.

Lemma never_aborts_set_reg (i v : Z) : never_aborts (set_reg i v).
Proof. intros s s'. unfold set_reg. destruct (in_array _ _); discriminate. Qed.

Lemma never_aborts_load (i : Z) : never_aborts (load i).
Proof. intros s s'. unfold load. destruct (in_array _ _); discriminate. Qed.

Lemma never_aborts_store (i v : Z) : never_aborts (store i v).
Proof. intros s s'. unfold store. destruct (in_array _ _); discriminate. Qed.

Lemma never_aborts_getchar : never_aborts getchar.
Proof. intros s s'. unfold getchar. destruct (stdin s); discriminate. Qed.

Lemma never_aborts_check_key : never_aborts check_key.
Proof. intros s s'. unfold check_key. destruct (key_ready s); discriminate. Qed.

Lemma never_aborts_putc (c : Z) : never_aborts (putc c).
Proof. intros s s'. discriminate. Qed.

Lemma never_aborts_printf (text : string) : never_aborts (printf text).
Proof. intros s s'. discriminate. Qed.

Lemma never_aborts_pure {A} (f : vm -> A * vm) :
  never_aborts (fun s => Ok (fst (f s)) (snd (f s))).
Proof. intros s s'. discriminate. Qed.

(** Solves [never_aborts m] for a computation built from the primitives. *)
Ltac no_abort :=
  repeat
    match goal with
    | |- never_aborts (bind _ _) => apply never_aborts_bind; [| intros ?]
    | |- never_aborts (if _ then _ else _) => apply never_aborts_if
    | |- never_aborts (ret _) => apply never_aborts_ret
    | |- never_aborts (get_reg _) => apply never_aborts_get_reg
    | |- never_aborts (set_reg _ _) => apply never_aborts_set_reg
    | |- never_aborts (load _) => apply never_aborts_load
    | |- never_aborts (store _ _) => apply never_aborts_store
    | |- never_aborts (mem_write _ _) => apply never_aborts_store
    | |- never_aborts getchar => apply never_aborts_getchar
    | |- never_aborts check_key => apply never_aborts_check_key
    | |- never_aborts (putc _) => apply never_aborts_putc
    | |- never_aborts (printf _) => apply never_aborts_printf
    | |- never_aborts (mem_read _) => unfold mem_read
    | |- never_aborts (update_flags _) => unfold update_flags
    | |- never_aborts (fun s => Ok _ _) => intros ? ?; discriminate
    end.

Lemma never_aborts_puts_loop (fuel : nat) (c : Z) :
  never_aborts (puts_loop fuel c).
Proof.
  revert c. induction fuel as [| fuel IH]; intros c.
  - intros s s'. discriminate.
  - cbn [puts_loop]. no_abort. apply IH.
Qed.

Lemma never_aborts_putsp_loop (fuel : nat) (c : Z) :
  never_aborts (putsp_loop fuel c).
Proof.
  revert c. induction fuel as [| fuel IH]; intros c.
  - intros s s'. discriminate.
  - cbn [putsp_loop]. cbv zeta. no_abort. apply IH.
Qed.

Lemma never_aborts_trap (instruction : Z) : never_aborts (trap instruction).
Proof.
  unfold trap. cbv zeta. repeat apply never_aborts_if.
  - unfold trap_puts. no_abort. apply never_aborts_puts_loop.
  - unfold trap_getc. no_abort.
  - unfold trap_out. no_abort.
  - unfold trap_in. no_abort.
  - unfold trap_putsp. no_abort. apply never_aborts_putsp_loop.
  - unfold trap_halt. no_abort.
  - no_abort.
Qed.

Lemma opcode_range (instruction : Z) :
  is_word instruction -> 0 <= instruction >> 12 <= 15.
Proof.
  unfold is_word. intros H. rewrite Z.shiftr_div_pow2 by lia.
  change (2 ^ 12) with 4096.
  split; [apply Z.div_pos; lia |].
  assert (instruction / 4096 < 16) by (apply Z.div_lt_upper_bound; lia). lia.
Qed.

(** X18. Decoding an instruction word ends in [abort()] exactly when its
    opcode (the top four bits) is RTI (8) or RES (13), and then before
    anything but the fetch has changed the state.  Every other opcode of a
    16-bit word selects a handler, none of which aborts, so the default
    case of the switch is never reached. *)
Theorem dispatch_aborts_on_reserved_only (instruction : Z) (s : vm) :
  is_word instruction ->
  0 <= instruction >> 12 <= 15 /\
  (instruction >> 12 = OP_RTI \/ instruction >> 12 = OP_RES ->
   dispatch instruction s = Aborted s) /\
  (forall s',
     dispatch instruction s = Aborted s' ->
     instruction >> 12 = OP_RTI \/ instruction >> 12 = OP_RES) /\
  (forall s0,
     fetch s0 = Ok instruction s ->
     instruction >> 12 = OP_RTI \/ instruction >> 12 = OP_RES ->
     step s0 = Aborted s).
Proof.
  intros Hw. pose proof (opcode_range instruction Hw) as Hop.
  assert (instruction >> 12 = OP_RTI \/ instruction >> 12 = OP_RES ->
          dispatch instruction s = Aborted s) as Hres.
  { intros [H | H]; unfold dispatch; cbv zeta; rewrite H; reflexivity. }
  split; [exact Hop |]. split; [exact Hres |]. split.
  - intros s'. unfold dispatch. cbv zeta.
    repeat match goal with
           | |- context [?x =? ?c] =>
               destruct (Z.eqb_spec x c);
               [ first [ left; assumption
                       | right; assumption
                       | match goal with
                         | |- ?h instruction s = Aborted s' -> _ =>
                             let Hna := fresh "Hna" in
                             assert (never_aborts (h instruction)) as Hna
                               by first [ apply never_aborts_trap
                                        | unfold h; cbv zeta; no_abort ];
                             intros Habort; exfalso; exact (Hna _ _ Habort)
                         end ]
               | ]
           end.
    intros _. unfold OP_BR, OP_ADD, OP_LD, OP_ST, OP_JSR, OP_AND, OP_LDR,
      OP_STR, OP_RTI, OP_NOT, OP_LDI, OP_STI, OP_JMP, OP_RES, OP_LEA,
      OP_TRAP in *. lia.
  - intros s0 Hfetch Hor. rewrite (step_after_fetch _ _ _ Hfetch).
    apply Hres. exact Hor.
Qed.

(** RTI as the first instruction of a program. *)
Lemma dispatch_aborts_on_reserved_only_witness :
  exists s, step (boot (one_word_image 0x8000) [] []) = Aborted s /\
            reg s R_PC = 0x3001.
Proof.
  destruct (dispatch_aborts_on_reserved_only 0x8000
              (set_regs (upd (reg (boot (one_word_image 0x8000) [] [])) R_PC 0x3001)
                 (boot (one_word_image 0x8000) [] [])))
    as (_ & _ & _ & Hstep).
  - unfold is_word. lia.
  - eexists. split.
    + apply Hstep; [reflexivity | left; reflexivity].
    + reflexivity.
Defined.

(** ** Words everywhere *)

(** ADD R1, R1, #-1 on a zero register wraps to 0xFFFF, still a word. *)
Lemma run_keeps_words_witness :
  exists s',
    run 1 (boot (one_word_image 0x127F) [] []) = Ok tt s' /\
    words s' /\ reg s' R_R1 = 0xFFFF.
Proof.
  eexists. split; [reflexivity |]. split; [| reflexivity].
  apply (run_keeps_words 1 (one_word_image 0x127F) [] []); [| reflexivity].
  intros a. unfold one_word_image, upd, is_word, PC_START.
  destruct (a =? 12288); lia.
Defined.

(** ** Writing and reading memory *)

(** X20. [mem_write] to an address inside [memory] is a plain store, at the
    two keyboard addresses too: only that cell changes and the keyboard is
    not consulted.  Reading the address back returns the value written and
    changes nothing, except at the status address 0xFE00, where the read
    replaces what was written by the result of its own poll (0 or 0x8000)
    and returns that. *)
Theorem mem_write_then_read (a v : Z) (s : vm) :
  0 <= a < MEMORY_LEN ->
  exists s1,
    mem_write a v s = Ok tt s1 /\
    memory s1 a = v /\
    (forall b, b <> a -> memory s1 b = memory s b) /\
    reg s1 = reg s /\ running s1 = running s /\
    key_ready s1 = key_ready s /\ stdin s1 = stdin s /\ stdout s1 = stdout s /\
    (a <> MR_KBSR -> mem_read a s1 = Ok v s1) /\
    (a = MR_KBSR ->
     exists w s2,
       mem_read a s1 = Ok w s2 /\ (w = 0 \/ w = 0x8000) /\
       memory s2 MR_KBSR = w).
Proof.
  intros Ha.
  exists (set_memory (upd (memory s) a v) s).
  split; [apply mem_write_inside; exact Ha |].
  cbn [memory reg running key_ready stdin stdout set_memory].
  split; [apply upd_same |].
  split; [intros b Hb; apply upd_other; exact Hb |].
  do 5 (split; [reflexivity |]).
  split.
  - intros Hne.
    rewrite (mem_read_plain a _ Hne Ha). cbn [memory set_memory].
    rewrite upd_same. reflexivity.
  - intros ->.
    set (s1 := set_memory (upd (memory s) MR_KBSR v) s).
    destruct (check_key_total s1) as (k & t1 & Hpoll & [-> | ->] & _).
    + exists 0. eexists. split; [apply (mem_read_status_idle _ _ Hpoll) |].
      split; [left; reflexivity |]. apply upd_same.
    + destruct (getchar_total t1) as (c & t2 & Hget & _).
      exists 0x8000. eexists.
      split; [apply (mem_read_status_ready s1 t1 t2 1 c Hpoll);
              [discriminate | exact Hget] |].
      split; [right; reflexivity |].
      cbn [memory set_memory]. rewrite upd_other by discriminate.
      apply upd_same.
Qed.

(** A word written to the keyboard data register reads back; one written
    to the status register does not. *)
Lemma mem_write_then_read_witness :
  (exists s1,
     mem_write MR_KBDR 0x41 (demo_regs 0) = Ok tt s1 /\
     mem_read MR_KBDR s1 = Ok 0x41 s1) /\
  (exists s1 w s2,
     mem_write MR_KBSR 0x41 (demo_regs 0) = Ok tt s1 /\
     mem_read MR_KBSR s1 = Ok w s2 /\ (w = 0 \/ w = 0x8000)).
Proof.
  split.
  - destruct (mem_write_then_read MR_KBDR 0x41 (demo_regs 0))
      as (s1 & Hw & _ & _ & _ & _ & _ & _ & _ & Hplain & _).
    + vm_compute. split; [discriminate | reflexivity].
    + exists s1. split; [exact Hw | apply Hplain; discriminate].
  - destruct (mem_write_then_read MR_KBSR 0x41 (demo_regs 0))
      as (s1 & Hw & _ & _ & _ & _ & _ & _ & _ & _ & Hstatus).
    + vm_compute. split; [discriminate | reflexivity].
    + destruct (Hstatus eq_refl) as (w & s2 & Hread & Hval & _).
      exists s1, w, s2. repeat split; assumption.
Defined.
